(** * pywal/colors.py: palette generation

    A shallow embedding of [src/pywal/colors.py] and the properties of its
    slot matcher, post-processing, cache naming and cache lookup.

    Conventions of the embedding.
    - A Python [str] is a [string]; a character is a code point below 256.
    - A Python [float] is a primitive binary64 [float]: the same IEEE 754
      format, with the same correctly rounded operations.
    - A Python exception is a value of [exn]; a call that may raise returns
      a [result].
    - A Python list that is mutated in place lives in a [heap] and is passed
      around by its location. *)

From Stdlib Require Import ZArith Uint63 Floats Ascii String.
From Stdlib Require Import DecimalString DecimalPos DecimalZ.
From stdpp Require Import gmap strings list fin_maps.

Set Warnings "-inexact-float".

Local Open Scope string_scope.
Local Open Scope Z_scope.

(** ** Exceptions and results *)

Inductive exn : Type :=
  | InvalidLiteral   (* ValueError: invalid literal for int() with base 16 *)
  | EmptySequence    (* ValueError: min() arg is an empty sequence *)
  | NotInList        (* ValueError: list.remove(x): x not in list *)
  | BadFloat         (* ValueError: could not convert string to float *)
  | IndexError       (* IndexError: list (assignment) index out of range *)
  | TypeError        (* TypeError: float() argument must be a string or a number *)
  | OSError          (* OSError: os.path.getsize on a missing file *)
  | ImportError      (* ImportError: the fallback backend is missing as well *)
  | BackendError.    (* whatever the backend raises *)

Inductive result (A : Type) : Type :=
  | Ok (a : A)
  | Error (e : exn).
Arguments Ok {A} a.
Arguments Error {A} e.

Definition rbind {A B} (r : result A) (f : A → result B) : result B :=
  match r with
  | Ok a => f a
  | Error e => Error e
  end.

Declare Scope res_scope.
Delimit Scope res_scope with res.
Notation "'let?' x := r 'in' k" := (rbind r (fun x => k))
  (at level 10, x pattern, r at level 100, k at level 200) : res_scope.
Local Open Scope res_scope.

Definition is_Ok {A} (r : result A) : Prop := ∃ a, r = Ok a.
Definition is_Error {A} (r : result A) : Prop := ∃ e, r = Error e.

(** ** The builtins used on strings *)

Module Py.

(** [s.lstrip("#")]: every leading [#] is dropped. *)
Fixpoint lstrip (c : ascii) (s : string) : string :=
  match s with
  | String a r => if Ascii.eqb a c then lstrip c r else s
  | EmptyString => s
  end.

(** [s[i:i + n]] for non-negative [i]: clipped at the end of [s]. *)
Definition slice (i n : nat) (s : string) : string := substring i n s.

(** The whitespace [int()] skips: tab, LF, VT, FF, CR and space. *)
Definition is_space (c : ascii) : bool :=
  let n := nat_of_ascii c in
  ((9 <=? n)%nat && (n <=? 13)%nat) || (n =? 32)%nat.

(** Before parsing, [int()] maps a non-ASCII white space (NEL, NBSP) to a
    space, and any other character from 127 on, none of which is a decimal
    digit below 256, to [?]. *)
Definition to_ascii (c : ascii) : ascii :=
  let n := nat_of_ascii c in
  if (n <? 127)%nat then c
  else if (n =? 133)%nat || (n =? 160)%nat then " "%char
  else "?"%char.

(** The value of a digit in any base up to 36. *)
Definition digit_value (c : ascii) : option Z :=
  let n := Z.of_nat (nat_of_ascii c) in
  if (48 <=? n) && (n <=? 57) then Some (n - 48)
  else if (97 <=? n) && (n <=? 122) then Some (n - 87)
  else if (65 <=? n) && (n <=? 90) then Some (n - 55)
  else None.

Definition hex_digit (c : ascii) : option Z :=
  match digit_value c with
  | Some d => if d <? 16 then Some d else None
  | None => None
  end.

Fixpoint skip_spaces (l : list ascii) : list ascii :=
  match l with
  | c :: r => if is_space c then skip_spaces r else l
  | [] => []
  end.

(** The digit loop: hex digits with single underscores between them.
    Returns the value, the number of digits and what is left. *)
Fixpoint scan_digits (l : list ascii) (prev_us : bool) (acc : Z) (ndig : nat)
  : option (Z * nat * list ascii) :=
  match l with
  | c :: r =>
      if Ascii.eqb c "_" then
        if prev_us then None else scan_digits r true acc ndig
      else
        match hex_digit c with
        | Some d => scan_digits r false (16 * acc + d) (S ndig)
        | None => if prev_us then None else Some (acc, ndig, l)
        end
  | [] => if prev_us then None else Some (acc, ndig, l)
  end.

Definition skip_sign (l : list ascii) : Z * list ascii :=
  match l with
  | "+"%char :: r => (1, r)
  | "-"%char :: r => (-1, r)
  | _ => (1, l)
  end.

(** The optional [0x] or [0X] prefix, and the one underscore allowed
    after it. *)
Definition skip_prefix (l : list ascii) : list ascii :=
  match l with
  | "0"%char :: x :: r =>
      if Ascii.eqb x "x" || Ascii.eqb x "X" then
        match r with
        | "_"%char :: r' => r'
        | _ => r
        end
      else l
  | _ => l
  end.

(** [int(s, 16)]. *)
Definition int16 (s : string) : result Z :=
  let l := skip_spaces (to_ascii <$> list_ascii_of_string s) in
  let '(sign, l) := skip_sign l in
  let l := skip_prefix l in
  match l with
  | "_"%char :: _ => Error InvalidLiteral
  | _ =>
      match scan_digits l false 0 0 with
      | Some (v, S _, rest) =>
          match skip_spaces rest with
          | [] => Ok (sign * v)
          | _ :: _ => Error InvalidLiteral
          end
      | _ => Error InvalidLiteral
      end
  end.

(** The float of a Python int; exact for the ints met here, which have at
    most two hex digits. *)
Definition float_of_int (z : Z) : float :=
  if z <? 0 then PrimFloat.opp (PrimFloat.of_uint63 (Uint63.of_Z (- z)))
  else PrimFloat.of_uint63 (Uint63.of_Z z).

(** [os.path.join(a, *p)] of posixpath. *)
Definition starts_with_slash (s : string) : bool :=
  match s with
  | String "/" _ => true
  | _ => false
  end.

Fixpoint ends_with_slash (s : string) : bool :=
  match s with
  | EmptyString => false
  | String c EmptyString => Ascii.eqb c "/"
  | String _ r => ends_with_slash r
  end.

Definition join1 (path b : string) : string :=
  if starts_with_slash b then b
  else if String.eqb path "" || ends_with_slash path then path ++ b
  else path ++ "/" ++ b.

Definition path_join (a : string) (p : list string) : string :=
  foldl join1 a p.

(** [str(n)] of a Python int. *)
Definition str_of_int (z : Z) : string :=
  NilZero.string_of_int (Z.to_int z).

End Py.

(** ** Colors *)

(** An extracted color is a hex string; a decoded color is a triple of
    channel values. *)
Abbreviation color := string (only parsing).
Definition rgb : Type := float * float * float.

(** [x_colors_b], in the order of the source. *)
Definition x_colors_b : list (Z * Z * Z) :=
  [ (0, 0, 0);        (* Black *)
    (205, 0, 0);      (* Red *)
    (0, 205, 0);      (* Green *)
    (205, 205, 0);    (* Yellow *)
    (0, 0, 238);      (* Blue *)
    (205, 0, 205);    (* Magenta *)
    (0, 205, 205);    (* Cyan *)
    (229, 229, 229);  (* White *)
    (255, 0, 0);      (* Bright Red *)
    (0, 255, 0);      (* Bright Green *)
    (255, 255, 0);    (* Bright Yellow *)
    (92, 92, 255);    (* Bright Blue *)
    (255, 0, 255);    (* Bright Magenta *)
    (0, 255, 255);    (* Bright Cyan *)
    (127, 127, 127);  (* Bright Black (Gray) *)
    (255, 255, 255)   (* Bright White *)
  ].

Definition over255 (z : Z) : float := (Py.float_of_int z / 255)%float.

Definition x_colors : list rgb :=
  (λ '(r, g, b), (over255 r, over255 g, over255 b)) <$> x_colors_b.

(** [hex_to_rgb]. The generator expression is consumed by [tuple] in the
    order 0, 2, 4, so the first slice that [int] refuses raises. *)
Definition hex_to_rgb (hex_color : color) : result rgb :=
  let hex_color := Py.lstrip "#" hex_color in
  let? r := Py.int16 (Py.slice 0 2 hex_color) in
  let? g := Py.int16 (Py.slice 2 2 hex_color) in
  let? b := Py.int16 (Py.slice 4 2 hex_color) in
  Ok (over255 r, over255 g, over255 b).

Definition well_formed (c : color) : Prop := is_Ok (hex_to_rgb c).

(** ** The slot matcher *)

(** [list.remove(x)]: drops the first element equal to [x]. *)
Fixpoint list_remove (x : color) (l : list color) : result (list color) :=
  match l with
  | [] => Error NotInList
  | c :: r =>
      if String.eqb c x then Ok r
      else let? r' := list_remove x r in Ok (c :: r')
  end.

(** [l[i] = v]. *)
Definition list_assign {A} (l : list A) (i : nat) (v : A) : result (list A) :=
  if decide (i < length l)%nat then Ok (<[i:=v]> l) else Error IndexError.

(** [l[i]]. *)
Definition list_item {A} (l : list A) (i : nat) : result A :=
  match l !! i with
  | Some a => Ok a
  | None => Error IndexError
  end.

Section Matcher.

(** Line 49 computes a float from the two decoded colors, with [**] and
    [sqrt] of the C library, and [min] compares these floats with [<].
    The matcher does not depend on which float comes out: the value type,
    the computation and the comparison are parameters. *)
Context {dist : Type}.
Variable euclid : rgb → rgb → dist.
Variable dist_lt : dist → dist → bool.

Definition color_diff (rgb1 : rgb) (hex_color2 : color) : result dist :=
  let? rgb2 := hex_to_rgb hex_color2 in
  Ok (euclid rgb1 rgb2).

(** [min(cs, key=l)]: the key of every item is computed, and the current
    best is replaced only by an item whose key is strictly smaller. *)
Fixpoint min_scan (key : color → result dist) (best : color) (kbest : dist)
    (rest : list color) : result color :=
  match rest with
  | [] => Ok best
  | c :: rest =>
      let? k := key c in
      if dist_lt k kbest then min_scan key c k rest
      else min_scan key best kbest rest
  end.

Definition py_min (key : color → result dist) (cs : list color)
  : result color :=
  match cs with
  | [] => Error EmptySequence
  | c :: rest => let? k := key c in min_scan key c k rest
  end.

(** The loop over [enumerate(x_colors)]. *)
Fixpoint match_loop (xs : list rgb) (i : nat) (out : list (option color))
    (cs : list color) : result (list (option color)) :=
  match xs with
  | [] => Ok out
  | x_color :: xs =>
      let? desired := py_min (color_diff x_color) cs in
      let? out := list_assign out i (Some desired) in
      let? cs := list_remove desired cs in
      match_loop xs (S i) out cs
  end.

(** [match_colors]: [out] starts as [[None] * len(colors)]. *)
Definition match_colors (colors : list color)
  : result (list (option color)) :=
  match_loop x_colors 0 (replicate (length colors) None) colors.

(** [a] is strictly closer to the reference [x] than [b]. *)
Definition closer (x : rgb) (a b : color) : bool :=
  match color_diff x a, color_diff x b with
  | Ok da, Ok db => dist_lt da db
  | _, _ => false
  end.

(** The color at position [j] of the pool is the one to select for
    the reference [x]: no color of the pool is strictly closer, and every
    color before it is strictly farther. *)
Definition is_pick (x : rgb) (pool : list color) (j : nat) (c : color)
  : Prop :=
  pool !! j = Some c ∧
  (∀ c', c' ∈ pool → closer x c' c = false) ∧
  (∀ c', c' ∈ take j pool → closer x c c' = true).

(** An assignment of the slots in the words of the specification: the
    slots are served in order, each takes a color of the pool by the rule
    [pick], and that color leaves the pool. *)
Inductive assignment (pick : rgb → list color → nat → color → Prop)
  : list rgb → list color → list color → list color → Prop :=
  | assign_done pool : assignment pick [] pool [] pool
  | assign_step x xs pool j c picked rest :
      pool !! j = Some c →
      pick x pool j c →
      assignment pick xs (delete j pool) picked rest →
      assignment pick (x :: xs) pool (c :: picked) rest.

(** The greedy assignment: every slot takes its closest color, the first
    one on a tie. *)
Definition greedy : list rgb → list color → list color → list color → Prop :=
  assignment is_pick.

(** What the proofs use of the comparison: it is a strict weak order on
    the distances that are [valid]. *)
Record strict_weak_order_on (valid : dist → Prop) : Prop := {
  lt_irrefl : ∀ a, valid a → dist_lt a a = false;
  lt_trans : ∀ a b c, valid a → valid b → valid c →
    dist_lt a b = true → dist_lt b c = true → dist_lt a c = true;
  lt_incomparable : ∀ a b c, valid a → valid b → valid c →
    dist_lt a b = false → dist_lt b c = false → dist_lt a c = false
}.

(** The color [c] has a distance to the reference [x], and a valid one. *)
Definition keyed (valid : dist → Prop) (x : rgb) (c : color) : Prop :=
  ∃ d, color_diff x c = Ok d ∧ valid d.

End Matcher.

(** ** Python values seen through the builtins *)

(** [saturate_colors] and [cache_fname] look at the saturation argument only
    through [bool(v)], [float(v)] and [str(v)]; a value is what these three
    return. *)
Record pyval : Type := {
  py_bool : bool;
  py_float : result float;
  py_str : string
}.

(** [None]. *)
Definition py_none : pyval :=
  {| py_bool := false; py_float := Error TypeError; py_str := "None" |}.

(** The empty string, the default of [sat]. *)
Definition py_empty : pyval :=
  {| py_bool := false; py_float := Error BadFloat; py_str := "" |}.

(** A float [x] whose [str] is [s]: falsy when it is zero. *)
Definition py_of_float (x : float) (s : string) : pyval :=
  {| py_bool := negb (x =? 0)%float; py_float := Ok x; py_str := s |}.

(** A non-empty string [s] that [float()] reads as [x]: always truthy. *)
Definition py_numeric_str (s : string) (x : float) : pyval :=
  {| py_bool := negb (String.eqb s ""); py_float := Ok x; py_str := s |}.

(** ** Lists in the heap *)

Definition loc : Type := positive.
Abbreviation heap := (gmap loc (list color)).

(** A computation reads and writes the heap and may raise; what it wrote
    before raising stays written. *)
Definition M (A : Type) : Type := heap → result A * heap.

Definition st_ret {A} (a : A) : M A := λ h, (Ok a, h).

Definition st_bind {A B} (m : M A) (f : A → M B) : M B :=
  λ h, match m h with
       | (Ok a, h') => f a h'
       | (Error e, h') => (Error e, h')
       end.

Definition st_lift {A} (r : result A) : M A := λ h, (r, h).

Declare Scope st_scope.
Delimit Scope st_scope with st.
Notation "'let!' x := m 'in' k" := (st_bind m (fun x => k))
  (at level 10, x pattern, m at level 100, k at level 200) : st_scope.
Notation "'exec' m 'then' k" := (st_bind m (fun _ => k))
  (at level 10, m at level 100, k at level 200) : st_scope.
Local Open Scope st_scope.

(** [len(l)], [l[i]] and [l[i] = v] on the list at [l]. *)
Definition list_len (l : loc) : M nat :=
  λ h, match h !! l with
       | Some cs => (Ok (length cs), h)
       | None => (Error TypeError, h)
       end.

Definition get_item (l : loc) (i : nat) : M color :=
  λ h, match h !! l with
       | Some cs => (list_item cs i, h)
       | None => (Error TypeError, h)
       end.

Definition set_item (l : loc) (i : nat) (v : color) : M unit :=
  λ h, match h !! l with
       | Some cs =>
           match list_assign cs i v with
           | Ok cs' => (Ok tt, <[l:=cs']> h)
           | Error e => (Error e, h)
           end
       | None => (Error TypeError, h)
       end.

(** A [for] loop over a list of indices. *)
Fixpoint for_each (idx : list nat) (body : nat → M unit) : M unit :=
  match idx with
  | [] => st_ret tt
  | i :: idx => exec body i then for_each idx body
  end.

(** ** The post-processor *)

Section PostProcessor.

(** [util.saturate_color], [util.darken_color] and [util.lighten_color]
    live in [util.py]; they map a color and an amount to a color. *)
Variable saturate_color : color → float → color.
Variable darken_color : color → float → color.
Variable lighten_color : color → float → color.

(** [i not in [0, 7, 8, 15]]. *)
Definition not_anchor (i : nat) : bool :=
  negb (bool_decide (i ∈ [0; 7; 8; 15]%nat)).

(** The light branch of [generic_adjust]. Its loop binds what it computes
    to the loop variable [color]; nothing is stored into [colors]. *)
Definition adjust_light (colors : loc) : M unit :=
  exec (let! n := list_len colors in
        for_each (seq 0 n) (λ i,
          let! color := get_item colors i in
          let color := saturate_color color 0.6%float in
          let color := darken_color color 0.5%float in
          st_ret tt)) then
  exec (let! c0 := get_item colors 0 in
        set_item colors 0 (lighten_color c0 0.95%float)) then
  exec (let! c0 := get_item colors 0 in
        set_item colors 7 (darken_color c0 0.75%float)) then
  exec (let! c0 := get_item colors 0 in
        set_item colors 8 (darken_color c0 0.25%float)) then
  let! c7 := get_item colors 7 in
  set_item colors 15 c7.

(** The dark branch. *)
Definition adjust_dark (colors : loc) : M unit :=
  exec (let! c0 := get_item colors 0 in
        set_item colors 0 (darken_color c0 0.8%float)) then
  exec (let! c0 := get_item colors 0 in
        set_item colors 7 (lighten_color c0 0.75%float)) then
  exec (let! c0 := get_item colors 0 in
        set_item colors 8 (lighten_color c0 0.25%float)) then
  let! c7 := get_item colors 7 in
  set_item colors 15 c7.

(** [generic_adjust]. *)
Definition generic_adjust (colors : loc) (light : bool) : M loc :=
  exec (if light then adjust_light colors else adjust_dark colors) then
  st_ret colors.

(** [amount and float(amount) <= 1.0]: [float] is not called on a falsy
    amount. *)
Definition saturation_requested (amount : pyval) : result bool :=
  if py_bool amount then
    let? x := py_float amount in Ok (x <=? 1)%float
  else Ok false.

(** [saturate_colors]. *)
Definition saturate_colors (colors : loc) (amount : pyval) : M loc :=
  exec (let! go := st_lift (saturation_requested amount) in
        if go : bool then
          let! n := list_len colors in
          for_each (seq 0 n) (λ i,
            if not_anchor i then
              let! c := get_item colors i in
              let! x := st_lift (py_float amount) in
              set_item colors i (saturate_color c x)
            else st_ret tt)
        else st_ret tt) then
  st_ret colors.

(** [f(colors)] for a list no one else holds: the list after the call. *)
Definition on_fresh_list (f : loc → M loc) (colors : list color)
  : result (list color) :=
  match f 1%positive {[ 1%positive := colors ]} with
  | (Ok l, h) =>
      match h !! l with
      | Some cs => Ok cs
      | None => Error TypeError
      end
  | (Error e, _) => Error e
  end.

End PostProcessor.

(** ** Cache names *)

(** The pattern of [re.sub("[/|\\|.]", "_", img)]. The Python literal
    denotes the regular expression [[/|\|.]], one character class with the
    items [/], [|], the escape [\|] (the bar again) and [.]. *)
Definition in_class (c : ascii) : bool :=
  bool_decide (c ∈ ["/"; "|"; "."]%char).

(** [re.sub] for a pattern that is one character class: every character of
    the class is replaced. *)
Fixpoint re_sub_class (cls : ascii → bool) (repl s : string) : string :=
  match s with
  | EmptyString => EmptyString
  | String c r =>
      (if cls c then repl else String c EmptyString)
        ++ re_sub_class cls repl r
  end.

(** [name.replace(".py", "")]. *)
Fixpoint remove_dot_py (s : string) : string :=
  match s with
  | String "." (String "p" (String "y" r)) => remove_dot_py r
  | String c r => String c (remove_dot_py r)
  | EmptyString => EmptyString
  end.

(** ["__" in name]. *)
Fixpoint has_dunder (s : string) : bool :=
  match s with
  | String "_" (String "_" _) => true
  | String _ r => has_dunder r
  | EmptyString => false
  end.

(** ** Schemes *)

Record special_t : Type := {
  background : option color;
  foreground : option color;
  cursor : option color
}.

(** The dictionary of [colors_to_dict]; [colors] keeps the insertion
    order. *)
Record scheme : Type := {
  wallpaper : string;
  alpha : string;
  special : special_t;
  colors : list (string * option color)
}.

Definition set_alpha (a : string) (d : scheme) : scheme :=
  {| wallpaper := wallpaper d; alpha := a;
     special := special d; colors := colors d |}.

(** What a call can read and change outside its arguments:
    [util.Color.alpha_num] and the files of the cache. The cache files and
    the images are different files. *)
Record world : Type := {
  alpha_num : string;
  files : gmap string scheme
}.


(** Modelled from the spec: [os.path.isfile] on a cache path, which is not
    part of the module. A cache entry is a file of the cache directory. *)
Definition isfile (path : string) (w : world) : bool :=
  bool_decide (is_Some (files w !! path)).

(** Modelled from the spec: [theme.file], of [theme.py], which is missing.
    It loads and parses the JSON blob at the path and returns the scheme the
    blob represents. *)
Definition theme_file (path : string) (w : world) : result scheme :=
  match files w !! path with
  | Some d => Ok d
  | None => Error OSError
  end.

(** Modelled from the spec: [util.save_file_json], of [util.py], which is
    missing. It persists the scheme as JSON at the path. *)
Definition save_file_json (d : scheme) (path : string) (w : world) : world :=
  {| alpha_num := alpha_num w; files := <[path:=d]> (files w) |}.

Section Palette.

Context {dist : Type}.
Variable euclid : rgb → rgb → dist.
Variable dist_lt : dist → dist → bool.
Variable saturate_color : color → float → color.

(** [os.path.getsize]. *)
Variable getsize : string → result Z.
(** [__cache_version__], of [settings.py]. *)
Variable cache_version : string.
(** The names that [os.scandir] finds in the backends directory. *)
Variable backend_files : list string.
(** What [random.shuffle] makes of a list. *)
Variable shuffle : list string → list string.
(** Whether [__import__("pywal.backends.<name>")] succeeds. *)
Variable importable : string → bool.
(** The [get(img, light)] of the backend of that name. *)
Variable backend_get : string → string → bool → result (list color).

(** [list_backends]. *)
Definition list_backends : list string :=
  remove_dot_py <$> filter (λ name, has_dunder name = false) backend_files.

(** [colors_to_dict]. *)
Definition colors_to_dict (cols : list color) (img : string) (w : world)
  : result scheme :=
  let? cs := match_colors euclid dist_lt cols in
  let ok := imap (λ i v, ("color" ++ Py.str_of_int (Z.of_nat i), v)) cs in
  let? c0 := list_item cs 0 in
  let? c15 := list_item cs 15 in
  let? c15' := list_item cs 15 in
  Ok {| wallpaper := img;
        alpha := alpha_num w;
        special := {| background := c0; foreground := c15;
                      cursor := c15' |};
        colors := ok |}.

(** [cache_fname]. *)
Definition cache_fname (img backend : string) (light : bool)
    (cache_dir : string) (sat : pyval) : result (list string) :=
  let color_type := if light then "light" else "dark" in
  let file_name := re_sub_class in_class "_" img in
  let? file_size := getsize img in
  Ok [ cache_dir; "schemes";
       file_name ++ "_" ++ color_type ++ "_" ++ backend ++ "_"
         ++ py_str sat ++ "_" ++ Py.str_of_int file_size ++ "_"
         ++ cache_version ++ ".json" ].

(** [get_backend]. *)
Definition get_backend (backend : string) : result string :=
  if String.eqb backend "random" then
    list_item (shuffle list_backends) 0
  else Ok backend.

(** The miss branch of [get] up to the scheme: the backend is resolved and
    imported, with [wal] as the fallback, and its colors are saturated and
    matched. *)
Definition generate (img : string) (light : bool) (backend : string)
    (sat : pyval) (w : world) : result scheme :=
  let? backend := get_backend backend in
  let? backend :=
    if importable backend then Ok backend
    else if importable "wal" then Ok "wal"
    else Error ImportError in
  let? cols := backend_get backend img light in
  let? cols :=
    on_fresh_list (λ l, saturate_colors saturate_color l sat) cols in
  colors_to_dict cols img w.

(** [get]. *)
Definition get (img : string) (light : bool) (backend cache_dir : string)
    (sat : pyval) (w : world) : result scheme * world :=
  match cache_fname img backend light cache_dir sat with
  | Error e => (Error e, w)
  | Ok cache_name =>
      let cache_file := Py.path_join (hd "" cache_name) (tl cache_name) in
      if isfile cache_file w then
        match theme_file cache_file w with
        | Ok d => (Ok (set_alpha (alpha_num w) d), w)
        | Error e => (Error e, w)
        end
      else
        match generate img light backend sat w with
        | Ok d => (Ok d, save_file_json d cache_file w)
        | Error e => (Error e, w)
        end
  end.

End Palette.

(** * Definitions used to state the properties *)

(** A string as the specification expects it: six hex digits after an
    optional [#]. *)
Definition valid_hex6 (s : string) : bool :=
  let t := match s with String "#" r => r | _ => s end in
  (String.length t =? 6)%nat
  && forallb (λ c, bool_decide (is_Some (Py.hex_digit c)))
       (list_ascii_of_string t).

Definition all_ascii : list ascii := ascii_of_nat <$> seq 0 256.

Definition result_Z_eqb (r : result Z) (z : Z) : bool :=
  match r with
  | Ok v => v =? z
  | Error _ => false
  end.

Definition two_digits_ok (a b : ascii) : bool :=
  match Py.hex_digit a, Py.hex_digit b with
  | Some x, Some y =>
      result_Z_eqb (Py.int16 (String a (String b EmptyString))) (16 * x + y)
  | _, _ => true
  end.

Definition hex6 (a b c d e f : ascii) (rest : string) : string :=
  String a (String b (String c (String d (String e (String f rest))))).

Section PostProcessorResults.

Variable saturate_color : color → float → color.
Variable darken_color : color → float → color.
Variable lighten_color : color → float → color.

(** The list that saturation toward [x] leaves: the slots other than 0, 7,
    8 and 15 are saturated, these four are kept. *)
Definition saturated (x : float) (cs : list color) : list color :=
  imap (λ i c, if not_anchor i then saturate_color c x else c) cs.

(** The list that [generic_adjust] leaves. *)
Definition adjusted (light : bool) (cs : list color) : list color :=
  match cs with
  | c0 :: _ =>
      let bg := if light then lighten_color c0 0.95%float
                else darken_color c0 0.8%float in
      let fg := if light then darken_color bg 0.75%float
                else lighten_color bg 0.75%float in
      let c8 := if light then darken_color bg 0.25%float
                else lighten_color bg 0.25%float in
      <[15%nat:=fg]> (<[8%nat:=c8]> (<[7%nat:=fg]> (<[0%nat:=bg]> cs)))
  | [] => []
  end.

End PostProcessorResults.

Section MatcherRounds.

Context {dist : Type}.
Variable euclid : rgb → rgb → dist.
Variable dist_lt : dist → dist → bool.

(** One round of the loop serves a slot by the rule [pick]. *)
Definition serves (pick : rgb → list color → nat → color → Prop) : Prop :=
  ∀ x cs, cs ≠ [] → Forall well_formed cs →
    ∃ c j, py_min dist_lt (color_diff euclid x) cs = Ok c ∧
           cs !! j = Some c ∧
           list_remove c cs = Ok (delete j cs) ∧
           pick x cs j c.

End MatcherRounds.

(** The upper case of an ASCII letter; other characters are kept. *)
Definition ascii_upper (c : ascii) : ascii :=
  let n := nat_of_ascii c in
  if (97 <=? n)%nat && (n <=? 122)%nat then ascii_of_nat (n - 32) else c.

Fixpoint map_chars (f : ascii → ascii) (s : string) : string :=
  match s with
  | EmptyString => EmptyString
  | String c r => String (f c) (map_chars f r)
  end.

Definition result_Z_eq (r1 r2 : result Z) : bool :=
  match r1, r2 with
  | Ok a, Ok b => a =? b
  | Error _, Error _ => true
  | _, _ => false
  end.

(** [int] reads [s] as it reads its upper case. *)
Definition same_in_upper (s : string) : bool :=
  result_Z_eq (Py.int16 (map_chars ascii_upper s)) (Py.int16 s).

(** What [int] reads from [s] lies between -15 and 255. *)
Definition int16_in_range (s : string) : bool :=
  match Py.int16 s with
  | Ok z => (-15 <=? z) && (z <=? 255)
  | Error _ => true
  end.

(** A property holds of every string of at most two characters. *)
Definition holds_on_short (P : string → bool) : bool :=
  P EmptyString
  && forallb (λ a, P (String a EmptyString)) all_ascii
  && forallb (λ a, forallb (λ b, P (String a (String b EmptyString)))
                     all_ascii) all_ascii.

(** Line 49 on binary64 floats, with the [x ** 2] of the C library as a
    parameter. *)
Definition euclid_pow (pow2 : float → float) (rgb1 rgb2 : rgb) : float :=
  let '(r1, g1, b1) := rgb1 in
  let '(r2, g2, b2) := rgb2 in
  PrimFloat.sqrt (pow2 (r2 - r1) + pow2 (g2 - g1) + pow2 (b2 - b1))%float.

Section CachePath.

Variable getsize : string → result Z.
Variable cache_version : string.

(** The cache file of [get]: lines 148 and 149. *)
Definition cache_file (img backend : string) (light : bool)
    (cache_dir : string) (sat : pyval) : result string :=
  let? cache_name :=
    cache_fname getsize cache_version img backend light cache_dir sat in
  Ok (Py.path_join (hd "" cache_name) (tl cache_name)).

End CachePath.

(** The file name of a cache entry, field by field. *)
Definition entry_name (img backend : string) (light : bool) (sat : pyval)
    (file_size : Z) (cache_version : string) : string :=
  re_sub_class in_class "_" img ++ "_" ++ (if light then "light" else "dark")
    ++ "_" ++ backend ++ "_" ++ py_str sat ++ "_" ++ Py.str_of_int file_size
    ++ "_" ++ cache_version ++ ".json".

(** The keys of the [colors] of a scheme. *)
Definition color_keys : list string :=
  [ "color0"; "color1"; "color2"; "color3"; "color4"; "color5"; "color6";
    "color7"; "color8"; "color9"; "color10"; "color11"; "color12";
    "color13"; "color14"; "color15" ].

(** The scheme with the colors [out] in its slots, in this order. *)
Definition scheme_of (img a : string) (out : list color) : scheme :=
  {| wallpaper := img;
     alpha := a;
     special := {| background := out !! 0%nat; foreground := out !! 15%nat;
                   cursor := out !! 15%nat |};
     colors := zip color_keys (Some <$> out) |}.

(** A float that is not NaN. *)
Definition not_nan (d : float) : Prop := PrimFloat.is_nan d = false.

(** The place of a float in the order of [<]: the sign class first, then
    the exponent, then the mantissa. *)
Definition sf_rank (f : spec_float) : Z * Z * Z :=
  match f with
  | S754_zero _ => (0, 0, 0)
  | S754_infinity true => (-2, 0, 0)
  | S754_infinity false => (2, 0, 0)
  | S754_nan => (3, 0, 0)
  | S754_finite false m e => (1, e, Z.pos m)
  | S754_finite true m e => (-1, - e, Z.neg m)
  end.

Definition lex_lt (p q : Z * Z * Z) : Prop :=
  let '(a1, b1, c1) := p in
  let '(a2, b2, c2) := q in
  a1 < a2 ∨ (a1 = a2 ∧ (b1 < b2 ∨ (b1 = b2 ∧ c1 < c2))).

(** No distance of a color of the list to a reference color is NaN. *)
Definition no_nan_check (pow2 : float → float) (colors : list color) : bool :=
  forallb (λ x,
    forallb (λ c,
      match color_diff (euclid_pow pow2) x c with
      | Ok d => negb (PrimFloat.is_nan d)
      | Error _ => true
      end) colors) x_colors.

(** [int] refuses [s] when [s] has no hex digit in it. *)
Definition refused_without_digit (s : string) : bool :=
  implb (forallb (λ c, bool_decide (Py.hex_digit c = None))
           (list_ascii_of_string s))
        (match Py.int16 s with Error _ => true | Ok _ => false end).

(** ** Instances and sample inputs *)

(** [euclid_pow] at one choice of the power function, the product [x * x],
    used to evaluate sample inputs only: the theorems are stated for any
    distance function or for [euclid_pow] at any [pow2]. *)
Definition euclid_float : rgb → rgb → float :=
  euclid_pow (λ x, x * x)%float.

Definition sample16 : list color :=
  [ "#ffffff"; "#808080"; "#00ffff"; "#ff00ff"; "#5c5cff"; "#ffff00";
    "#00ff00"; "#ff0000"; "#e5e5e5"; "#00cdcd"; "#cd00cd"; "#0000ee";
    "#cdcd00"; "#00cd00"; "#cd0000"; "#000000" ].

(** A stand-in for [util.saturate_color]: without saturation a color is a
    gray. *)
Definition gray_out (c : color) (x : float) : color :=
  if (x =? 0)%float then "#808080" else c.

(** The string ["0"]: not empty, so truthy, and [float] reads it as zero. *)
Definition py_zero_str : pyval := py_numeric_str "0" 0%float.

Definition sample_world : world := {| alpha_num := "100"; files := ∅ |}.

Definition sample_files : list string := ["wal.py"; "__init__.py"].

Definition sample_backend (name img : string) (light : bool)
  : result (list color) := Ok sample16.

Definition sample_path : string :=
  "/home/user/.cache/wal/schemes/_home_user_wall_jpg_dark_wal__10000_1.1.0.json".

Definition sample_path_resized : string :=
  "/home/user/.cache/wal/schemes/_home_user_wall_jpg_dark_wal__10001_1.1.0.json".

(** A cache that holds an entry for the sample image. *)
Definition sample_cached : world :=
  {| alpha_num := "80";
     files := {[ sample_path := scheme_of "/home/user/wall.jpg" "100"
                                  sample16 ]} |}.

(** * Properties *)

(** ** Decoding hex colors *)

Lemma all_ascii_complete (a : ascii) : a ∈ all_ascii.
Proof.
  unfold all_ascii. apply list_elem_of_fmap.
  exists (nat_of_ascii a). split; [by rewrite ascii_nat_embedding|].
  apply elem_of_seq. pose proof (nat_ascii_bounded a). lia.
Qed.

Lemma two_digits_ok_all :
  forallb (λ a, forallb (two_digits_ok a) all_ascii) all_ascii = true.
Proof. vm_compute. reflexivity. Qed.

(** [int] reads two hex digits as the number they write in base 16. *)
Lemma int16_two_digits (a b : ascii) (x y : Z) :
  Py.hex_digit a = Some x → Py.hex_digit b = Some y →
  Py.int16 (String a (String b EmptyString)) = Ok (16 * x + y).
Proof.
  intros Ha Hb.
  pose proof two_digits_ok_all as H.
  rewrite forallb_forall in H.
  specialize (H a (proj1 (list_elem_of_In _ _) (all_ascii_complete a))).
  rewrite forallb_forall in H.
  specialize (H b (proj1 (list_elem_of_In _ _) (all_ascii_complete b))).
  unfold two_digits_ok in H. rewrite Ha, Hb in H.
  destruct (Py.int16 _) as [v|e]; simpl in H; [|discriminate].
  apply Z.eqb_eq in H. by subst.
Qed.

(** [int] raises nothing but the invalid literal error. *)
Lemma int16_error (s : string) (e : exn) :
  Py.int16 s = Error e → e = InvalidLiteral.
Proof.
  unfold Py.int16. intros H.
  destruct (Py.skip_sign _) as [sg l].
  destruct (Py.skip_prefix l) as [|c r] eqn:El.
  - simpl in H. congruence.
  - destruct (Py.scan_digits (c :: r) false 0 0) as [[[v [|n]] rest]|];
      [| destruct (Py.skip_spaces rest) |];
      repeat match type of H with
        | context [match ?x with _ => _ end] => destruct x
        end; congruence.
Qed.

Lemma int16_empty : Py.int16 "" = Error InvalidLiteral.
Proof. reflexivity. Qed.

Lemma hex_to_rgb_error (s : string) (e : exn) :
  hex_to_rgb s = Error e → e = InvalidLiteral.
Proof.
  unfold hex_to_rgb. intros H.
  destruct (Py.int16 (Py.slice 0 2 _)) eqn:E0; simpl in H;
    [|inversion H; subst; by eapply int16_error].
  destruct (Py.int16 (Py.slice 2 2 _)) eqn:E2; simpl in H;
    [|inversion H; subst; by eapply int16_error].
  destruct (Py.int16 (Py.slice 4 2 _)) eqn:E4; simpl in H;
    [|inversion H; subst; by eapply int16_error].
  discriminate.
Qed.

Lemma slice_short (s : string) (i n : nat) :
  (String.length s ≤ i)%nat → Py.slice i n s = "".
Proof.
  unfold Py.slice. revert i n.
  induction s as [|c s IH]; intros [|i] [|n] Hlen; simpl in *;
    try reflexivity; try lia; apply IH; lia.
Qed.

Lemma hex_digit_not_hash (a : ascii) (x : Z) :
  Py.hex_digit a = Some x → Ascii.eqb a "#" = false.
Proof.
  intros H. destruct (Ascii.eqb_spec a "#") as [->|]; [|done].
  vm_compute in H. discriminate.
Qed.

Lemma hex_to_rgb_hex6 (a b c d e f : ascii) (va vb vc vd ve vf : Z)
    (rest : string) :
  Py.hex_digit a = Some va → Py.hex_digit b = Some vb →
  Py.hex_digit c = Some vc → Py.hex_digit d = Some vd →
  Py.hex_digit e = Some ve → Py.hex_digit f = Some vf →
  hex_to_rgb (hex6 a b c d e f rest)
  = Ok (over255 (16 * va + vb), over255 (16 * vc + vd),
        over255 (16 * ve + vf)).
Proof.
  intros Ha Hb Hc Hd He Hf. unfold hex_to_rgb, hex6.
  cbn [Py.lstrip]. rewrite (hex_digit_not_hash a va Ha).
  cbn [Py.slice substring].
  replace (substring 0 0 rest) with "" by (by destruct rest).
  rewrite (int16_two_digits a b va vb Ha Hb). cbn [rbind].
  rewrite (int16_two_digits c d vc vd Hc Hd). cbn [rbind].
  rewrite (int16_two_digits e f ve vf He Hf). reflexivity.
Qed.

(** C9, as stated, fails: five hex digits are not a color of the expected
    length, and [hex_to_rgb] decodes them, reading the last digit alone as
    the blue channel. *)
Lemma hex_to_rgb_five_digits :
  valid_hex6 "#fffff" = false ∧
  hex_to_rgb "#fffff" = Ok (over255 255, over255 255, over255 15).
Proof. split; vm_compute; reflexivity. Qed.

Lemma holds_on_short_sound (P : string → bool) (s : string) :
  holds_on_short P = true → (String.length s ≤ 2)%nat → P s = true.
Proof.
  unfold holds_on_short. rewrite !andb_true_iff, !forallb_forall.
  intros [[H0 H1] H2] Hlen.
  destruct s as [|a [|b [|c s]]]; [done| | |simpl in Hlen; lia].
  - apply H1, list_elem_of_In, all_ascii_complete.
  - specialize (H2 a (proj1 (list_elem_of_In _ _) (all_ascii_complete a))).
    rewrite forallb_forall in H2.
    apply H2, list_elem_of_In, all_ascii_complete.
Qed.

Lemma slice_length (s : string) (i : nat) :
  (String.length (Py.slice i 2 s) ≤ 2)%nat.
Proof.
  unfold Py.slice. revert i. induction s as [|c s IH]; intros [|i]; simpl;
    try lia; [|apply IH].
  destruct s as [|c' s]; simpl; [lia|]. destruct s; simpl; lia.
Qed.

Lemma int16_no_digit (s : string) :
  (String.length s ≤ 2)%nat →
  Forall (λ c, Py.hex_digit c = None) (list_ascii_of_string s) →
  Py.int16 s = Error InvalidLiteral.
Proof.
  intros Hlen Hnone.
  assert (H : holds_on_short refused_without_digit = true)
    by (vm_compute; reflexivity).
  apply holds_on_short_sound with (s := s) in H; [|done].
  unfold refused_without_digit in H.
  assert (Hall : forallb (λ c, bool_decide (Py.hex_digit c = None))
                   (list_ascii_of_string s) = true).
  { apply forallb_forall. intros c Hc. apply bool_decide_eq_true_2.
    by apply (proj1 (Forall_forall _ _) Hnone), list_elem_of_In. }
  rewrite Hall in H. simpl in H.
  destruct (Py.int16 s) as [z|e] eqn:E; [done|].
  f_equal. by eapply int16_error.
Qed.

(** C9, amended: [hex_to_rgb] drops every leading [#] and reads the slices
    at 0, 2 and 4 of what is left with [int(_, 16)]; when [int] accepts the
    three slices, the result is their values, each divided by 255. Six hex
    digits, with or without [#], give the three two-digit values, and what
    follows the sixth digit is ignored. The call fails, always with the
    invalid literal error, exactly when [int] refuses one of the three
    slices; [int] refuses every slice that has no hex digit in it, which is
    the case of the last slice whenever fewer than five characters are
    left. *)
Theorem hex_to_rgb_spec :
  (∀ s : string, hex_to_rgb (String "#" s) = hex_to_rgb s) ∧
  (∀ (s : string) (r g b : Z),
     Py.int16 (Py.slice 0 2 (Py.lstrip "#" s)) = Ok r →
     Py.int16 (Py.slice 2 2 (Py.lstrip "#" s)) = Ok g →
     Py.int16 (Py.slice 4 2 (Py.lstrip "#" s)) = Ok b →
     hex_to_rgb s = Ok (over255 r, over255 g, over255 b)) ∧
  (∀ (a b c d e f : ascii) (va vb vc vd ve vf : Z) (rest : string),
     Py.hex_digit a = Some va → Py.hex_digit b = Some vb →
     Py.hex_digit c = Some vc → Py.hex_digit d = Some vd →
     Py.hex_digit e = Some ve → Py.hex_digit f = Some vf →
     hex_to_rgb (hex6 a b c d e f rest)
     = Ok (over255 (16 * va + vb), over255 (16 * vc + vd),
           over255 (16 * ve + vf))) ∧
  (∀ s : string,
     hex_to_rgb s = Error InvalidLiteral ↔
     ∃ i, i ∈ [0; 2; 4]%nat ∧
          is_Error (Py.int16 (Py.slice i 2 (Py.lstrip "#" s)))) ∧
  (∀ (s : string) (e : exn), hex_to_rgb s = Error e → e = InvalidLiteral) ∧
  (∀ (s : string) (i : nat),
     i ∈ [0; 2; 4]%nat →
     Forall (λ c, Py.hex_digit c = None)
       (list_ascii_of_string (Py.slice i 2 (Py.lstrip "#" s))) →
     hex_to_rgb s = Error InvalidLiteral) ∧
  (∀ s : string,
     (String.length (Py.lstrip "#" s) < 5)%nat →
     hex_to_rgb s = Error InvalidLiteral).
Proof.
  assert (Hiff : ∀ s : string,
    hex_to_rgb s = Error InvalidLiteral ↔
    ∃ i, i ∈ [0; 2; 4]%nat ∧
         is_Error (Py.int16 (Py.slice i 2 (Py.lstrip "#" s)))).
  { intros s. unfold hex_to_rgb. split.
    - intros He.
      destruct (Py.int16 (Py.slice 0 2 _)) eqn:E0; simpl in He;
        [|exists 0%nat; rewrite E0; split; [set_solver|by eexists]].
      destruct (Py.int16 (Py.slice 2 2 _)) eqn:E2; simpl in He;
        [|exists 2%nat; rewrite E2; split; [set_solver|by eexists]].
      destruct (Py.int16 (Py.slice 4 2 _)) eqn:E4; simpl in He;
        [discriminate|exists 4%nat; rewrite E4; split;
                      [set_solver|by eexists]].
    - intros (i & Hi & e & He). apply int16_error in He as Hinv. subst e.
      rewrite !elem_of_cons, elem_of_nil in Hi.
      destruct (Py.int16 (Py.slice 0 2 _)) as [r|e0] eqn:E0; simpl;
        [|f_equal; by eapply int16_error].
      destruct (Py.int16 (Py.slice 2 2 _)) as [g|e2] eqn:E2; simpl;
        [|f_equal; by eapply int16_error].
      destruct (Py.int16 (Py.slice 4 2 _)) as [b|e4] eqn:E4; simpl;
        [|f_equal; by eapply int16_error].
      destruct Hi as [->|[->|[->|[]]]]; congruence. }
  assert (Hnodigit : ∀ (s : string) (i : nat),
    i ∈ [0; 2; 4]%nat →
    Forall (λ c, Py.hex_digit c = None)
      (list_ascii_of_string (Py.slice i 2 (Py.lstrip "#" s))) →
    hex_to_rgb s = Error InvalidLiteral).
  { intros s i Hi Hnone. apply Hiff. exists i. split; [done|].
    exists InvalidLiteral. apply int16_no_digit; [apply slice_length|done]. }
  split; [|split; [|split; [|split; [|split; [|split]]]]].
  - intros s. unfold hex_to_rgb. by cbn [Py.lstrip Ascii.eqb Bool.eqb].
  - intros s r g b Hr Hg Hb. unfold hex_to_rgb. by rewrite Hr, Hg, Hb.
  - intros a b c d e f va vb vc vd ve vf rest. apply hex_to_rgb_hex6.
  - exact Hiff.
  - intros s e. apply hex_to_rgb_error.
  - exact Hnodigit.
  - intros s Hlen. apply (Hnodigit s 4%nat); [rewrite !elem_of_cons; auto|].
    rewrite slice_short by lia. constructor.
Qed.

Lemma hex_to_rgb_spec_witness :
  hex_to_rgb "ff8000" = Ok (over255 255, over255 128, over255 0).
Proof.
  exact (proj1 (proj2 (proj2 hex_to_rgb_spec)) "f"%char "f"%char "8"%char
           "0"%char "0"%char "0"%char 15 15 8 0 0 0 EmptyString
           eq_refl eq_refl eq_refl eq_refl eq_refl eq_refl).
Defined.

(** ** The reference palette *)

(** C7: the palette has 16 entries, but index 8 holds bright red; the gray
    that stands for bright black comes at index 14, after the other bright
    colors. *)
Theorem x_colors_b_order :
  length x_colors_b = 16%nat ∧
  x_colors_b !! 8%nat = Some (255, 0, 0) ∧
  x_colors_b !! 14%nat = Some (127, 127, 127) ∧
  x_colors_b !! 15%nat = Some (255, 255, 255).
Proof. repeat split. Qed.

(** ** Cache names *)

(** C3: in an image path the backslash is kept and the bar is replaced; the
    fields of the name are in the order of the contract. *)
Theorem cache_fname_backslash :
  cache_fname (λ _, Ok 10000) "1.1.0" "pics\wall.jpg" "wal" false
    "/home/user/.cache/wal" py_empty
  = Ok [ "/home/user/.cache/wal"; "schemes";
         "pics\wall_jpg_dark_wal__10000_1.1.0.json" ] ∧
  cache_fname (λ _, Ok 10000) "1.1.0" "/home/user/a|b.jpg" "wal" true
    "/home/user/.cache/wal" py_empty
  = Ok [ "/home/user/.cache/wal"; "schemes";
         "_home_user_a_b_jpg_light_wal__10000_1.1.0.json" ].
Proof. split; reflexivity. Qed.

(** ** Light and dark adjustment *)

(** C5: in light mode the slots other than 0, 7, 8 and 15 come out as they
    went in: they are neither desaturated nor darkened. Slot 0 is the
    lightened slot 0, slots 7 and 8 are darkened from it and slot 15 is
    slot 7. *)
Theorem generic_adjust_light_16
    (saturate_color darken_color lighten_color : color → float → color)
    (c0 c1 c2 c3 c4 c5 c6 c7 c8 c9 c10 c11 c12 c13 c14 c15 : color) :
  let bg := lighten_color c0 0.95%float in
  generic_adjust saturate_color darken_color lighten_color 1%positive true
    {[ 1%positive :=
         [c0; c1; c2; c3; c4; c5; c6; c7; c8; c9; c10; c11; c12; c13; c14;
          c15] ]}
  = (Ok 1%positive,
     {[ 1%positive :=
          [bg; c1; c2; c3; c4; c5; c6; darken_color bg 0.75%float;
           darken_color bg 0.25%float; c9; c10; c11; c12; c13; c14;
           darken_color bg 0.75%float] ]}).
Proof. reflexivity. Qed.

(** ** Lists in the heap *)

Section HeapFacts.

Implicit Types (h : heap) (l : loc) (cs : list color).

Lemma list_len_insert h l cs :
  list_len l (<[l:=cs]> h) = (Ok (length cs), <[l:=cs]> h).
Proof. unfold list_len. by rewrite lookup_insert_eq. Qed.

Lemma get_item_insert h l cs i c :
  cs !! i = Some c →
  get_item l i (<[l:=cs]> h) = (Ok c, <[l:=cs]> h).
Proof.
  intros Hi. unfold get_item, list_item. by rewrite lookup_insert_eq, Hi.
Qed.

Lemma set_item_insert h l cs i v :
  (i < length cs)%nat →
  set_item l i v (<[l:=cs]> h) = (Ok tt, <[l:=<[i:=v]> cs]> h).
Proof.
  intros Hi. unfold set_item, list_assign. rewrite lookup_insert_eq.
  rewrite decide_True by done. by rewrite insert_insert_eq.
Qed.

Lemma st_bind_ok {A B} (m : M A) (f : A → M B) h a h' r :
  m h = (Ok a, h') → f a h' = r → st_bind m f h = r.
Proof. intros Hm Hf. unfold st_bind. by rewrite Hm. Qed.

(** A loop that only reads the items leaves the heap as it is. *)
Lemma for_each_read_only h l cs n k :
  (k + n ≤ length cs)%nat →
  for_each (seq k n)
    (λ i, let! color := get_item l i in st_ret tt) (<[l:=cs]> h)
  = (Ok tt, <[l:=cs]> h).
Proof.
  revert k. induction n as [|n IH]; intros k Hk; [done|].
  cbn [seq for_each]. unfold st_bind at 1.
  destruct (lookup_lt_is_Some_2 cs k) as [c Hc]; [lia|].
  unfold st_bind at 1. rewrite (get_item_insert _ _ _ _ c Hc).
  unfold st_ret at 1. apply IH. lia.
Qed.

End HeapFacts.

(** ** Saturation *)

Section SaturateFacts.

Variable saturate_color : color → float → color.
Implicit Types (h : heap) (l : loc) (cs pre suf : list color).
Local Open Scope list_scope.

Lemma saturated_lookup x cs i :
  saturated saturate_color x cs !! i
  = (λ c, if not_anchor i then saturate_color c x else c) <$> cs !! i.
Proof. unfold saturated. by rewrite list_lookup_imap. Qed.

Lemma saturated_length x cs :
  length (saturated saturate_color x cs) = length cs.
Proof. unfold saturated. by rewrite length_imap. Qed.

Lemma saturate_loop x l h suf : ∀ pre,
  for_each (seq (length pre) (length suf))
    (λ i, if not_anchor i then
            let! c := get_item l i in
            let! x := st_lift (Ok x) in
            set_item l i (saturate_color c x)
          else st_ret tt)
    (<[l:=pre ++ suf]> h)
  = (Ok tt,
     <[l:=pre ++ imap (λ i c, if not_anchor (length pre + i)
                              then saturate_color c x else c) suf]> h).
Proof.
  induction suf as [|c suf IH]; intros pre; [done|].
  cbn [length seq for_each]. unfold st_bind at 1.
  destruct (not_anchor (length pre)) eqn:Hanchor.
  - unfold st_bind at 1.
    rewrite (get_item_insert _ _ _ _ c) by by rewrite list_lookup_middle.
    unfold st_bind at 1, st_lift at 1.
    rewrite set_item_insert by (rewrite length_app; simpl; lia).
    replace (<[length pre:=saturate_color c x]> (pre ++ c :: suf))
      with ((pre ++ [saturate_color c x]) ++ suf).
    2:{ rewrite <- (Nat.add_0_r (length pre)) at 1.
        rewrite insert_app_r. simpl. by rewrite <- app_assoc. }
    replace (S (length pre)) with (length (pre ++ [saturate_color c x]))
      by (rewrite length_app; simpl; lia).
    rewrite IH. do 2 f_equal. rewrite <- app_assoc. simpl.
    rewrite Nat.add_0_r, Hanchor. do 2 f_equal.
    apply imap_ext. intros i c' _. simpl.
    rewrite length_app. simpl.
    by replace (length pre + 1 + i)%nat with (length pre + S i)%nat by lia.
  - unfold st_ret at 1.
    replace (pre ++ c :: suf) with ((pre ++ [c]) ++ suf)
      by (by rewrite <- app_assoc).
    replace (S (length pre)) with (length (pre ++ [c]))
      by (rewrite length_app; simpl; lia).
    rewrite IH. do 2 f_equal. rewrite <- app_assoc. simpl.
    rewrite Nat.add_0_r, Hanchor. do 2 f_equal.
    apply imap_ext. intros i c' _. simpl.
    rewrite length_app. simpl.
    by replace (length pre + 1 + i)%nat with (length pre + S i)%nat by lia.
Qed.

End SaturateFacts.

Section PostProcessorFacts.

Variable saturate_color : color → float → color.
Variable darken_color : color → float → color.
Variable lighten_color : color → float → color.
Implicit Types (h : heap) (l : loc) (cs : list color).
Local Open Scope list_scope.

Lemma saturate_colors_run h l cs amount x :
  h !! l = Some cs →
  py_bool amount = true → py_float amount = Ok x → (x <=? 1)%float = true →
  saturate_colors saturate_color l amount h
  = (Ok l, <[l:=saturated saturate_color x cs]> h).
Proof.
  intros Hl Hb Hx Hle.
  rewrite <- (insert_id h l cs Hl) at 1.
  unfold saturate_colors, saturation_requested. rewrite Hb, Hx. cbn [rbind].
  rewrite Hle. unfold st_bind at 1. unfold st_bind at 1, st_lift at 1.
  unfold st_bind at 1. rewrite list_len_insert.
  pose proof (saturate_loop saturate_color x l h cs []) as Hloop.
  cbn [length app] in Hloop. by rewrite Hloop.
Qed.

Lemma saturate_colors_skip h l amount :
  saturation_requested amount = Ok false →
  saturate_colors saturate_color l amount h = (Ok l, h).
Proof.
  intros Hgo. unfold saturate_colors, st_bind, st_lift. by rewrite Hgo.
Qed.

Lemma saturate_colors_raise h l amount e :
  saturation_requested amount = Error e →
  saturate_colors saturate_color l amount h = (Error e, h).
Proof.
  intros Hgo. unfold saturate_colors, st_bind, st_lift. by rewrite Hgo.
Qed.

Lemma adjusted_length light cs :
  length (adjusted darken_color lighten_color light cs) = length cs.
Proof.
  destruct cs; [done|]. unfold adjusted. by rewrite !length_insert.
Qed.

Ltac run_heap :=
  cbn beta;
  lazymatch goal with
  | |- st_bind _ _ _ = _ => eapply st_bind_ok; [run_heap | run_heap]
  | |- list_len _ _ = _ => apply list_len_insert
  | |- for_each _ _ _ = _ => apply for_each_read_only; simpl; lia
  | |- get_item _ _ _ = _ => apply get_item_insert; reflexivity
  | |- set_item _ _ _ _ = _ => apply set_item_insert; simpl; lia
  | |- st_ret _ _ = _ => reflexivity
  end.

Lemma generic_adjust_run h l cs light :
  h !! l = Some cs → (16 ≤ length cs)%nat →
  generic_adjust saturate_color darken_color lighten_color l light h
  = (Ok l, <[l:=adjusted darken_color lighten_color light cs]> h).
Proof.
  intros Hl Hlen.
  rewrite <- (insert_id h l cs Hl) at 1.
  do 16 (destruct cs as [|? cs]; [simpl in Hlen; lia|]).
  unfold generic_adjust.
  destruct light; unfold adjust_light, adjust_dark; run_heap.
Qed.

End PostProcessorFacts.

(** C8, as stated, fails: a zero amount that arrives as the string ["0"] is
    not a no-op. *)
Lemma saturate_colors_zero_string :
  py_float py_zero_str = Ok 0%float ∧
  saturate_colors gray_out 1%positive py_zero_str {[ 1%positive := sample16 ]}
  ≠ (Ok 1%positive, {[ 1%positive := sample16 ]}).
Proof.
  split; [reflexivity|]. intros H.
  apply (f_equal (λ p, p.2 !! 1%positive)) in H.
  vm_compute in H. discriminate.
Qed.

(** C8, amended: [saturate_colors] leaves slots 0, 7, 8 and 15 of a
    16-element list unchanged for every amount. It leaves every slot
    unchanged when the amount is falsy ([None], the empty string, the number
    zero) or when its float value is not at most 1.0. For every other amount,
    that is a truthy one whose float value is at most 1.0, every slot outside
    0, 7, 8 and 15 is saturated toward that value: for the amounts in
    (0.0, 1.0], and also for a zero that is given as a non-empty string. *)
Theorem saturate_colors_spec
    (saturate_color : color → float → color)
    (h : heap) (l : loc) (cs : list color) (amount : pyval) :
  h !! l = Some cs → length cs = 16%nat →
  (∃ r cs',
     saturate_colors saturate_color l amount h = (r, <[l:=cs']> h) ∧
     ∀ i, i ∈ [0; 7; 8; 15]%nat → cs' !! i = cs !! i) ∧
  (py_bool amount = false ∨
   (∃ x, py_float amount = Ok x ∧ (x <=? 1)%float = false) →
   saturate_colors saturate_color l amount h = (Ok l, h)) ∧
  (∀ x, py_bool amount = true → py_float amount = Ok x →
        (x <=? 1)%float = true →
        ∃ cs',
          saturate_colors saturate_color l amount h = (Ok l, <[l:=cs']> h) ∧
          length cs' = 16%nat ∧
          ∀ i c, cs !! i = Some c →
                 cs' !! i = Some (if bool_decide (i ∈ [0; 7; 8; 15]%nat)
                                  then c else saturate_color c x)).
Proof.
  intros Hl Hlen.
  assert (Hlookup : ∀ x i c, cs !! i = Some c →
            saturated saturate_color x cs !! i
            = Some (if bool_decide (i ∈ [0; 7; 8; 15]%nat)
                    then c else saturate_color c x)).
  { intros x i c Hc. rewrite saturated_lookup, Hc. simpl.
    unfold not_anchor. by destruct (bool_decide _). }
  split; [|split].
  - destruct (saturation_requested amount) as [[|]|e] eqn:Hgo.
    + unfold saturation_requested in Hgo.
      destruct (py_bool amount) eqn:Hb; [|discriminate].
      destruct (py_float amount) as [x|] eqn:Hx; [|discriminate].
      simpl in Hgo. injection Hgo as Hle.
      exists (Ok l), (saturated saturate_color x cs). split.
      * by apply saturate_colors_run.
      * intros i Hi.
        destruct (lookup_lt_is_Some_2 cs i) as [c Hc].
        { rewrite Hlen. rewrite !elem_of_cons, elem_of_nil in Hi. lia. }
        rewrite (Hlookup x i c Hc), Hc. by rewrite bool_decide_eq_true_2.
    + exists (Ok l), cs. rewrite insert_id by done.
      split; [by apply saturate_colors_skip|done].
    + exists (Error e), cs. rewrite insert_id by done.
      split; [by apply saturate_colors_raise|done].
  - intros Hnoop. apply saturate_colors_skip. unfold saturation_requested.
    destruct (py_bool amount); [|done].
    destruct Hnoop as [?|(x & Hx & Hle)]; [done|]. by rewrite Hx; simpl; rewrite Hle.
  - intros x Hb Hx Hle. exists (saturated saturate_color x cs).
    split; [by apply saturate_colors_run|].
    split; [by rewrite saturated_length|]. apply Hlookup.
Qed.

Lemma saturate_colors_spec_witness :
  saturate_colors gray_out 1%positive py_empty {[ 1%positive := sample16 ]}
  = (Ok 1%positive, {[ 1%positive := sample16 ]}).
Proof.
  apply (saturate_colors_spec gray_out {[ 1%positive := sample16 ]}
           1%positive sample16 py_empty); [reflexivity|reflexivity|].
  left. reflexivity.
Defined.

(** C10: [saturate_colors] and [generic_adjust] return the location they
    were given, and the heap they leave is the one they found with the list
    at that location replaced: the list of the caller now holds the
    saturated, or the adjusted, slots, every other location is as it was,
    and no location is created. When [saturate_colors] does not saturate,
    the heap is the one it found, with every element of the list
    unchanged. *)
Theorem post_processors_in_place
    (saturate_color darken_color lighten_color : color → float → color)
    (h : heap) (l : loc) (cs : list color) :
  h !! l = Some cs →
  (∀ amount,
     saturation_requested amount = Ok false →
     saturate_colors saturate_color l amount h = (Ok l, h)) ∧
  (∀ amount x,
     py_bool amount = true → py_float amount = Ok x →
     (x <=? 1)%float = true →
     ∃ cs',
       saturate_colors saturate_color l amount h = (Ok l, <[l:=cs']> h) ∧
       ∀ i, cs' !! i
            = (λ c, if bool_decide (i ∈ [0; 7; 8; 15]%nat) then c
                    else saturate_color c x) <$> cs !! i) ∧
  (∀ (light : bool) (c0 : color),
     (16 ≤ length cs)%nat → cs !! 0%nat = Some c0 →
     let bg := if light then lighten_color c0 0.95%float
               else darken_color c0 0.8%float in
     let fg := if light then darken_color bg 0.75%float
               else lighten_color bg 0.75%float in
     let c8 := if light then darken_color bg 0.25%float
               else lighten_color bg 0.25%float in
     generic_adjust saturate_color darken_color lighten_color l light h
     = (Ok l,
        <[l:=<[15%nat:=fg]> (<[8%nat:=c8]> (<[7%nat:=fg]>
               (<[0%nat:=bg]> cs)))]> h)) ∧
  (∀ cs',
     (<[l:=cs']> h) !! l = Some cs' ∧
     (∀ l', l' ≠ l → (<[l:=cs']> h) !! l' = h !! l') ∧
     dom (<[l:=cs']> h) = dom h).
Proof.
  intros Hl. split; [|split; [|split]].
  - intros amount Hgo. by apply saturate_colors_skip.
  - intros amount x Hb Hx Hle. exists (saturated saturate_color x cs).
    split; [by apply saturate_colors_run|].
    intros i. rewrite saturated_lookup. unfold not_anchor.
    by destruct (bool_decide _), (cs !! i).
  - intros light c0 Hlen Hc0. cbv zeta.
    rewrite (generic_adjust_run _ _ _ h l cs light Hl Hlen).
    destruct cs as [|c cs']; [done|]. injection Hc0 as ->. done.
  - intros cs'. split; [by rewrite lookup_insert_eq|]. split.
    + intros l' Hne. by rewrite lookup_insert_ne.
    + rewrite dom_insert_L.
      apply subseteq_union_1_L, singleton_subseteq_l, elem_of_dom.
      by eexists.
Qed.

Lemma post_processors_in_place_witness :
  generic_adjust gray_out gray_out gray_out 1%positive true
    {[ 1%positive := sample16 ]}
  = (Ok 1%positive,
     <[1%positive:=<[15%nat:=gray_out (gray_out "#ffffff" 0.95%float)
                               0.75%float]>
                     (<[8%nat:=gray_out (gray_out "#ffffff" 0.95%float)
                                 0.25%float]>
                        (<[7%nat:=gray_out (gray_out "#ffffff" 0.95%float)
                                    0.75%float]>
                           (<[0%nat:=gray_out "#ffffff" 0.95%float]>
                              sample16)))]>
       {[ 1%positive := sample16 ]}).
Proof.
  destruct (post_processors_in_place gray_out gray_out gray_out
              ({[ 1%positive := sample16 ]} : heap) 1%positive sample16)
    as (_ & _ & H & _); [reflexivity|].
  apply (H true "#ffffff"); [simpl; lia|reflexivity].
Defined.

(** ** The cache *)

Section CacheFacts.

Context {dist : Type}.
Variable euclid : rgb → rgb → dist.
Variable dist_lt : dist → dist → bool.
Variable saturate_color : color → float → color.
Variable getsize : string → result Z.
Variable cache_version : string.
Variable backend_files : list string.
Variable shuffle : list string → list string.
Variable importable : string → bool.
Variable backend_get : string → string → bool → result (list color).



End CacheFacts.



(** ** The slot matcher *)

Section MatcherFacts.

Context {dist : Type}.
Variable euclid : rgb → rgb → dist.
Variable dist_lt : dist → dist → bool.
Implicit Types (x : rgb) (c : color) (cs pool pre mid rest : list color).
Local Open Scope list_scope.

Lemma color_diff_well_formed x c :
  well_formed c → ∃ d, color_diff euclid x c = Ok d.
Proof. intros [v Hv]. unfold color_diff. rewrite Hv. by eexists. Qed.

(** *** What holds for any comparison *)

Lemma min_scan_elem x rest : ∀ c0 k0,
  Forall well_formed rest →
  ∃ c, min_scan dist_lt (color_diff euclid x) c0 k0 rest = Ok c ∧
       (c = c0 ∨ c ∈ rest).
Proof.
  induction rest as [|c' rest IH]; intros c0 k0 Hwf.
  - exists c0. by split; [|left].
  - apply Forall_cons in Hwf as [Hc' Hwf].
    destruct (color_diff_well_formed x c' Hc') as [k Hk].
    cbn [min_scan]. rewrite Hk. cbn [rbind].
    destruct (dist_lt k k0).
    + destruct (IH c' k Hwf) as (c & Hc & Hor). exists c.
      split; [done|]. right. destruct Hor as [->|Hin]; [left|by right].
    + destruct (IH c0 k0 Hwf) as (c & Hc & Hor). exists c.
      split; [done|]. destruct Hor as [->|Hin]; [by left|right; by right].
Qed.

Lemma py_min_elem x cs :
  cs ≠ [] → Forall well_formed cs →
  ∃ c, py_min dist_lt (color_diff euclid x) cs = Ok c ∧ c ∈ cs.
Proof.
  destruct cs as [|c0 rest]; [done|]. intros _ Hwf.
  apply Forall_cons in Hwf as [Hc0 Hwf].
  destruct (color_diff_well_formed x c0 Hc0) as [k0 Hk0].
  cbn [py_min]. rewrite Hk0. cbn [rbind].
  destruct (min_scan_elem x rest c0 k0 Hwf) as (c & Hc & Hor).
  exists c. split; [done|]. destruct Hor as [->|Hin]; [left|by right].
Qed.

Lemma list_remove_at c cs : ∀ j,
  cs !! j = Some c → (∀ c', c' ∈ take j cs → c' ≠ c) →
  list_remove c cs = Ok (delete j cs).
Proof.
  induction cs as [|c0 cs IH]; intros [|j] Hj Hbefore; try done.
  - simpl in Hj. injection Hj as ->. simpl. by rewrite String.eqb_refl.
  - simpl in *. destruct (String.eqb_spec c0 c) as [->|Hne].
    + exfalso. apply (Hbefore c); [left|done].
    + rewrite (IH j Hj); [done|]. intros c' Hc'. apply Hbefore. by right.
Qed.

Lemma list_remove_first c cs :
  c ∈ cs →
  ∃ j, cs !! j = Some c ∧ list_remove c cs = Ok (delete j cs).
Proof.
  induction cs as [|c0 cs IH]; intros Hin; [by apply elem_of_nil in Hin|].
  simpl. destruct (String.eqb_spec c0 c) as [->|Hne].
  - by exists 0%nat.
  - apply elem_of_cons in Hin as [->|Hin]; [done|].
    destruct (IH Hin) as (j & Hj & ->). by exists (S j).
Qed.

Lemma list_remove_ok_length c cs cs' :
  list_remove c cs = Ok cs' → length cs = S (length cs').
Proof.
  revert cs'. induction cs as [|c0 cs IH]; intros cs' H; [done|].
  simpl in H. destruct (String.eqb c0 c).
  - by injection H as <-.
  - destruct (list_remove c cs) as [r|]; [|done].
    injection H as <-. simpl. f_equal. by apply IH.
Qed.

Lemma serves_any : serves euclid dist_lt (λ _ _ _ _, True).
Proof.
  intros x cs Hne Hwf.
  destruct (py_min_elem x cs Hne Hwf) as (c & Hmin & Hin).
  destruct (list_remove_first c cs Hin) as (j & Hj & Hrm).
  by exists c, j.
Qed.

Lemma out_assign (done : list color) (n : nat) c :
  list_assign ((Some <$> done) ++ replicate (S n) None) (length done) (Some c)
  = Ok ((Some <$> (done ++ [c])) ++ replicate n None).
Proof.
  unfold list_assign.
  rewrite decide_True
    by (rewrite length_app, length_fmap, length_replicate; lia).
  f_equal. rewrite insert_app_r_alt by (rewrite length_fmap; lia).
  rewrite length_fmap, Nat.sub_diag, fmap_app, <- app_assoc. done.
Qed.

(** The loop, from any round on: [done] holds the colors of the slots served
    so far and [cs] the pool. *)
Lemma match_loop_assignment pick xs :
  serves euclid dist_lt pick → ∀ done cs,
  Forall well_formed cs → (length xs ≤ length cs)%nat →
  ∃ picked rest,
    match_loop euclid dist_lt xs (length done)
      ((Some <$> done) ++ replicate (length cs) None) cs
    = Ok ((Some <$> (done ++ picked)) ++ replicate (length rest) None) ∧
    assignment pick xs cs picked rest.
Proof.
  intros Hserve. induction xs as [|x xs IH]; intros done cs Hwf Hlen.
  - exists [], cs. rewrite app_nil_r. split; [done|constructor].
  - assert (Hne : cs ≠ []) by (destruct cs; [simpl in Hlen; lia|done]).
    destruct (Hserve x cs Hne Hwf) as (c & j & Hmin & Hj & Hrm & Hpick).
    assert (Hdel : length cs = S (length (delete j cs))).
    { by apply (list_remove_ok_length c). }
    destruct (IH (done ++ [c]) (delete j cs)) as (picked & rest & Hloop & Hrest).
    { by apply Forall_delete. }
    { simpl in Hlen. lia. }
    exists (c :: picked), rest. split; [|by econstructor].
    cbn [match_loop]. rewrite Hmin. cbn [rbind].
    rewrite Hdel at 1. rewrite out_assign. cbn [rbind].
    rewrite Hrm. cbn [rbind].
    replace (S (length done)) with (length (done ++ [c]))
      by (rewrite length_app; simpl; lia).
    rewrite Hloop. by rewrite <- app_assoc.
Qed.

Lemma assignment_permutation pick xs pool picked rest :
  assignment pick xs pool picked rest →
  pool ≡ₚ picked ++ rest ∧ length picked = length xs.
Proof.
  induction 1 as [|x xs pool j c picked rest Hj _ _ [IHp IHl]]; [done|].
  split; [|simpl; by rewrite IHl].
  rewrite (delete_Permutation pool j c Hj). simpl. by rewrite IHp.
Qed.

(** With fewer colors than slots the pool runs dry, and [min] raises. *)
Lemma match_loop_short xs : ∀ done cs,
  Forall well_formed cs → (length cs < length xs)%nat →
  match_loop euclid dist_lt xs (length done)
    ((Some <$> done) ++ replicate (length cs) None) cs
  = Error EmptySequence.
Proof.
  induction xs as [|x xs IH]; intros done cs Hwf Hlen; [simpl in Hlen; lia|].
  destruct (decide (cs = [])) as [->|Hne]; [done|].
  destruct (serves_any x cs) as (c & j & Hmin & Hj & Hrm & _); [done..|].
  assert (Hdel : length cs = S (length (delete j cs))).
  { by apply (list_remove_ok_length c). }
  cbn [match_loop]. rewrite Hmin. cbn [rbind].
  rewrite Hdel at 1. rewrite out_assign. cbn [rbind].
  rewrite Hrm. cbn [rbind].
  replace (S (length done)) with (length (done ++ [c]))
    by (rewrite length_app; simpl; lia).
  apply IH; [by apply Forall_delete|]. cbn [length] in Hlen. lia.
Qed.

(** Whatever the colors, the loop returns only if every slot found a
    color. *)
Lemma match_loop_ok_length xs : ∀ i out cs r,
  match_loop euclid dist_lt xs i out cs = Ok r → (length xs ≤ length cs)%nat.
Proof.
  induction xs as [|x xs IH]; intros i out cs r H; [simpl; lia|].
  cbn [match_loop] in H.
  destruct (py_min _ _ cs) as [c|] eqn:Hmin; [|done]. cbn [rbind] in H.
  destruct (list_assign out i (Some c)) as [out'|]; [|done].
  cbn [rbind] in H.
  destruct (list_remove c cs) as [cs'|] eqn:Hrm; [|done]. cbn [rbind] in H.
  apply IH in H. apply list_remove_ok_length in Hrm. simpl. lia.
Qed.

End MatcherFacts.

(** *** What holds when the comparison is a strict weak order on the
    distances that occur *)

Section MatcherOrder.

Context {dist : Type}.
Variable euclid : rgb → rgb → dist.
Variable dist_lt : dist → dist → bool.
Variable valid : dist → Prop.
Hypothesis Hord : strict_weak_order_on dist_lt valid.
Implicit Types (x : rgb) (c : color) (cs pool pre mid rest : list color).
Local Open Scope list_scope.

Lemma keyed_well_formed x c : keyed euclid valid x c → well_formed c.
Proof.
  intros (d & Hd & _). unfold color_diff in Hd.
  destruct (hex_to_rgb c) eqn:E; [by eexists|done].
Qed.

Lemma closer_irrefl x c :
  keyed euclid valid x c → closer euclid dist_lt x c c = false.
Proof.
  intros (d & Hd & Hv). unfold closer. rewrite Hd.
  by apply (lt_irrefl _ _ Hord).
Qed.

Lemma closer_trans x a b c :
  keyed euclid valid x a → keyed euclid valid x b → keyed euclid valid x c →
  closer euclid dist_lt x a b = true → closer euclid dist_lt x b c = true →
  closer euclid dist_lt x a c = true.
Proof.
  intros (da & Ha & Hva) (db & Hb & Hvb) (dc & Hc & Hvc).
  unfold closer. rewrite Ha, Hb, Hc. by apply (lt_trans _ _ Hord).
Qed.

Lemma closer_asym x a b :
  keyed euclid valid x a → keyed euclid valid x b →
  closer euclid dist_lt x a b = true → closer euclid dist_lt x b a = false.
Proof.
  intros Ka Kb Hab. destruct (closer euclid dist_lt x b a) eqn:Hba; [|done].
  by rewrite <- (closer_irrefl x a Ka), (closer_trans x a b a).
Qed.

Lemma closer_between x a b c :
  keyed euclid valid x a → keyed euclid valid x b → keyed euclid valid x c →
  closer euclid dist_lt x a b = false → closer euclid dist_lt x b c = false →
  closer euclid dist_lt x a c = false.
Proof.
  intros (da & Ha & Hva) (db & Hb & Hvb) (dc & Hc & Hvc).
  unfold closer. rewrite Ha, Hb, Hc. by apply (lt_incomparable _ _ Hord).
Qed.

(** The scan of [min]: [best] is the pick of the part scanned so far, with
    [pre] before it and [mid] after it. *)
Lemma min_scan_pick x rest : ∀ pre best kbest mid,
  color_diff euclid x best = Ok kbest →
  Forall (keyed euclid valid x) (pre ++ best :: mid ++ rest) →
  (∀ c', c' ∈ pre → closer euclid dist_lt x best c' = true) →
  (∀ c', c' ∈ mid → closer euclid dist_lt x c' best = false) →
  ∃ c j,
    min_scan dist_lt (color_diff euclid x) best kbest rest = Ok c ∧
    is_pick euclid dist_lt x (pre ++ best :: mid ++ rest) j c.
Proof.
  induction rest as [|c' rest IH];
    intros pre best kbest mid Hbest Hkeyed Hpre Hafter.
  - exists best, (length pre). split; [done|].
    rewrite app_nil_r in *.
    apply Forall_app in Hkeyed as [Kpre Kbm].
    apply Forall_cons in Kbm as [Kbest Kmid].
    split; [by rewrite list_lookup_middle|]. split.
    + intros c' Hc'. apply elem_of_app in Hc' as [Hc'|Hc'].
      * apply closer_asym; [done| |by apply Hpre].
        by eapply (proj1 (Forall_forall _ _) Kpre).
      * apply elem_of_cons in Hc' as [->|Hc'];
          [by apply closer_irrefl|by apply Hafter].
    + intros c' Hc'. apply Hpre. by rewrite take_app_length in Hc'.
  - assert (Hall := Hkeyed).
    apply Forall_app in Hkeyed as [Kpre Kbm].
    apply Forall_cons in Kbm as [Kbest Kmr].
    apply Forall_app in Kmr as [Kmid Krest].
    apply Forall_cons in Krest as [Kc' Krest].
    destruct Kc' as (k & Hk & Hvk).
    assert (Kc' : keyed euclid valid x c') by (by exists k).
    cbn [min_scan]. rewrite Hk. cbn [rbind].
    destruct (dist_lt k kbest) eqn:Hlt.
    + assert (Hcb : closer euclid dist_lt x c' best = true).
      { unfold closer. by rewrite Hk, Hbest. }
      destruct (IH (pre ++ best :: mid) c' k [] Hk) as (c & j & Hc & Hp).
      * by rewrite <- app_assoc.
      * intros m Hm. apply elem_of_app in Hm as [Hm|Hm].
        { apply (closer_trans x c' best m); try done; [|by apply Hpre].
          by eapply (proj1 (Forall_forall _ _) Kpre). }
        apply elem_of_cons in Hm as [->|Hm]; [done|].
        assert (Km : keyed euclid valid x m)
          by (by eapply (proj1 (Forall_forall _ _) Kmid)).
        destruct (closer euclid dist_lt x c' m) eqn:Hcm; [done|].
        rewrite <- Hcb. symmetry.
        apply (closer_between x c' m best); try done. by apply Hafter.
      * by intros ? ?%elem_of_nil.
      * exists c, j. split; [done|]. by rewrite <- app_assoc in Hp.
    + assert (Hcb : closer euclid dist_lt x c' best = false).
      { unfold closer. by rewrite Hk, Hbest. }
      destruct (IH pre best kbest (mid ++ [c']) Hbest) as (c & j & Hc & Hp).
      * by rewrite <- app_assoc.
      * done.
      * intros m Hm. apply elem_of_app in Hm as [Hm|Hm]; [by apply Hafter|].
        by apply list_elem_of_singleton in Hm as ->.
      * exists c, j. split; [done|]. by rewrite <- app_assoc in Hp.
Qed.

(** One round of the loop serves its slot greedily. *)
Lemma round_greedy x cs :
  cs ≠ [] → Forall (keyed euclid valid x) cs →
  ∃ c j,
    py_min dist_lt (color_diff euclid x) cs = Ok c ∧
    cs !! j = Some c ∧
    list_remove c cs = Ok (delete j cs) ∧
    is_pick euclid dist_lt x cs j c.
Proof.
  intros Hne Hkeyed. destruct cs as [|c0 rest]; [done|].
  assert (Kc0 : keyed euclid valid x c0)
    by (by apply Forall_cons in Hkeyed as [? ?]).
  destruct Kc0 as (k0 & Hk0 & Hv0).
  destruct (min_scan_pick x rest [] c0 k0 [] Hk0) as (c & j & Hc & Hp);
    [done|by intros ? ?%elem_of_nil|by intros ? ?%elem_of_nil|].
  simpl in Hp. exists c, j. cbn [py_min]. rewrite Hk0. cbn [rbind].
  destruct Hp as (Hj & Hmin & Hfirst).
  split; [done|]. split; [done|]. split; [|done].
  apply list_remove_at; [done|]. intros c' Hc' ->.
  specialize (Hfirst c Hc'). rewrite closer_irrefl in Hfirst; [done|].
  eapply (proj1 (Forall_forall _ _) Hkeyed). apply list_elem_of_lookup.
  by exists j.
Qed.

(** The loop, from any round on, when every distance that can be compared is
    valid. *)
Lemma match_loop_greedy xs : ∀ done cs,
  (∀ x, x ∈ xs → Forall (keyed euclid valid x) cs) →
  (length xs ≤ length cs)%nat →
  ∃ picked rest,
    match_loop euclid dist_lt xs (length done)
      ((Some <$> done) ++ replicate (length cs) None) cs
    = Ok ((Some <$> (done ++ picked)) ++ replicate (length rest) None) ∧
    greedy euclid dist_lt xs cs picked rest.
Proof.
  induction xs as [|x xs IH]; intros done cs Hkeyed Hlen.
  - exists [], cs. rewrite app_nil_r. split; [done|constructor].
  - assert (Hne : cs ≠ []) by (destruct cs; [simpl in Hlen; lia|done]).
    destruct (round_greedy x cs Hne) as (c & j & Hmin & Hj & Hrm & Hpick).
    { apply Hkeyed. by left. }
    assert (Hdel : length cs = S (length (delete j cs))).
    { by apply (list_remove_ok_length c). }
    destruct (IH (done ++ [c]) (delete j cs))
      as (picked & rest & Hloop & Hrest).
    { intros x' Hx'. apply Forall_delete, Hkeyed. by right. }
    { simpl in Hlen. lia. }
    exists (c :: picked), rest. split; [|by econstructor].
    cbn [match_loop]. rewrite Hmin. cbn [rbind].
    rewrite Hdel at 1. rewrite out_assign. cbn [rbind].
    rewrite Hrm. cbn [rbind].
    replace (S (length done)) with (length (done ++ [c]))
      by (rewrite length_app; simpl; lia).
    rewrite Hloop. by rewrite <- app_assoc.
Qed.

End MatcherOrder.

(** *** The comparison of floats *)

Lemma SFltb_rank (f1 f2 : spec_float) :
  f1 ≠ S754_nan → f2 ≠ S754_nan →
  (SFltb f1 f2 = true ↔ lex_lt (sf_rank f1) (sf_rank f2)).
Proof.
  intros H1 H2. unfold SFltb.
  destruct f1 as [s1|s1| |s1 m1 e1], f2 as [s2|s2| |s2 m2 e2]; try congruence;
    try destruct s1; try destruct s2; simpl;
    try (split; [discriminate|lia]); try (split; [lia|reflexivity]).
  all: destruct (Z.compare_spec e1 e2); try (split; [intros _; lia|reflexivity]);
       try (split; [discriminate|lia]).
  all: subst; rewrite ?Pos.compare_cont_spec; simpl;
       destruct (Pos.compare_spec m1 m2); simpl;
       try (split; [intros _; lia|reflexivity]);
       try (split; [discriminate|lia]).
Qed.

Lemma not_nan_spec (d : float) : not_nan d → Prim2SF d ≠ S754_nan.
Proof.
  unfold not_nan, PrimFloat.is_nan. intros H Hnan.
  apply negb_false_iff in H. rewrite FloatAxioms.eqb_spec, Hnan in H.
  discriminate H.
Qed.

Lemma float_ltb_rank (a b : float) :
  not_nan a → not_nan b →
  ((a <? b)%float = true
   ↔ lex_lt (sf_rank (Prim2SF a)) (sf_rank (Prim2SF b))).
Proof.
  intros Ha Hb. rewrite FloatAxioms.ltb_spec.
  by apply SFltb_rank; apply not_nan_spec.
Qed.

(** On floats that are not NaN, [<] is a strict weak order. *)
Lemma float_ltb_order : strict_weak_order_on PrimFloat.ltb not_nan.
Proof.
  split.
  - intros a Ha. apply not_true_iff_false. rewrite float_ltb_rank by done.
    unfold lex_lt. destruct (sf_rank _) as [[? ?] ?]. lia.
  - intros a b c Ha Hb Hc. rewrite !float_ltb_rank by done.
    unfold lex_lt. destruct (sf_rank (Prim2SF a)) as [[? ?] ?],
      (sf_rank (Prim2SF b)) as [[? ?] ?], (sf_rank (Prim2SF c)) as [[? ?] ?].
    lia.
  - intros a b c Ha Hb Hc. rewrite <- !not_true_iff_false.
    rewrite !float_ltb_rank by done.
    unfold lex_lt. destruct (sf_rank (Prim2SF a)) as [[? ?] ?],
      (sf_rank (Prim2SF b)) as [[? ?] ?], (sf_rank (Prim2SF c)) as [[? ?] ?].
    lia.
Qed.

Lemma no_nan_check_sound (pow2 : float → float) (colors : list color) :
  no_nan_check pow2 colors = true →
  ∀ x c d, x ∈ x_colors → c ∈ colors →
    color_diff (euclid_pow pow2) x c = Ok d → PrimFloat.is_nan d = false.
Proof.
  unfold no_nan_check. rewrite forallb_forall. intros H x c d Hx Hc Hd.
  specialize (H x (proj1 (list_elem_of_In _ _) Hx)).
  rewrite forallb_forall in H.
  specialize (H c (proj1 (list_elem_of_In _ _) Hc)).
  rewrite Hd in H. by apply negb_true_iff in H.
Qed.

(** Decodable colors whose distances are not NaN have valid keys. *)
Lemma keyed_floats (pow2 : float → float) (colors : list color) :
  Forall well_formed colors →
  (∀ x c d, x ∈ x_colors → c ∈ colors →
     color_diff (euclid_pow pow2) x c = Ok d → PrimFloat.is_nan d = false) →
  ∀ x, x ∈ x_colors → Forall (keyed (euclid_pow pow2) not_nan x) colors.
Proof.
  intros Hwf Hnan x Hx. apply Forall_forall. intros c Hc.
  destruct (color_diff_well_formed (euclid_pow pow2) x c) as [d Hd].
  { by eapply (proj1 (Forall_forall _ _) Hwf). }
  exists d. split; [done|]. by eapply Hnan.
Qed.

(** Sixteen decodable colors with distances that are not NaN are assigned
    greedily, and the result is a permutation of them. *)
Lemma match_colors_floats (pow2 : float → float) (colors : list color) :
  length colors = 16%nat → Forall well_formed colors →
  (∀ x c d, x ∈ x_colors → c ∈ colors →
     color_diff (euclid_pow pow2) x c = Ok d → PrimFloat.is_nan d = false) →
  ∃ out,
    match_colors (euclid_pow pow2) PrimFloat.ltb colors = Ok (Some <$> out) ∧
    greedy (euclid_pow pow2) PrimFloat.ltb x_colors colors out [] ∧
    colors ≡ₚ out.
Proof.
  intros Hlen Hwf Hnan.
  destruct (match_loop_greedy (euclid_pow pow2) PrimFloat.ltb not_nan
              float_ltb_order x_colors [] colors
              (keyed_floats pow2 colors Hwf Hnan))
    as (out & rest & Hloop & Hgreedy); [by rewrite Hlen|].
  destruct (assignment_permutation _ _ _ _ _ Hgreedy) as [Hperm Hout].
  change (length x_colors) with 16%nat in Hout.
  assert (rest = []) as ->.
  { apply Permutation_length in Hperm. rewrite length_app in Hperm.
    apply nil_length_inv. lia. }
  rewrite app_nil_r in Hperm. exists out. split; [|done].
  etrans; [exact Hloop|]. cbn [app length replicate]. by rewrite app_nil_r.
Qed.

Lemma sample16_well_formed : Forall well_formed sample16.
Proof. repeat constructor; eexists; vm_compute; reflexivity. Qed.

(** C1: for 16 colors the matcher returns, and what it returns is the greedy
    assignment: the slots are served in the order 0 to 15 of the reference
    colors, slot [i] receives the color of the remaining pool that is
    closest to reference color [i], the first such color of the pool on a
    tie, and this color leaves the pool. The distance is the float of line
    49, for any power function of the C library, compared by the [<] of
    floats; as everywhere, the colors are strings that [hex_to_rgb] decodes,
    and no distance to a reference color is NaN. *)
Theorem match_colors_greedy (pow2 : float → float) (colors : list color) :
  length colors = 16%nat → Forall well_formed colors →
  (∀ x c d, x ∈ x_colors → c ∈ colors →
     color_diff (euclid_pow pow2) x c = Ok d → PrimFloat.is_nan d = false) →
  ∃ out,
    match_colors (euclid_pow pow2) PrimFloat.ltb colors = Ok (Some <$> out) ∧
    length out = 16%nat ∧
    greedy (euclid_pow pow2) PrimFloat.ltb x_colors colors out [].
Proof.
  intros Hlen Hwf Hnan.
  destruct (match_colors_floats pow2 colors Hlen Hwf Hnan)
    as (out & Hout & Hgreedy & Hperm).
  exists out. split; [done|]. split; [|done].
  apply Permutation_length in Hperm. lia.
Qed.

Lemma match_colors_greedy_witness :
  ∃ out,
    match_colors (euclid_pow (λ x, x * x)%float) PrimFloat.ltb sample16
    = Ok (Some <$> out) ∧
    length out = 16%nat ∧
    greedy (euclid_pow (λ x, x * x)%float) PrimFloat.ltb x_colors sample16
      out [].
Proof.
  apply (match_colors_greedy (λ x, x * x)%float sample16).
  - reflexivity.
  - exact sample16_well_formed.
  - apply no_nan_check_sound. vm_compute. reflexivity.
Defined.

(** C2: for 16 colors the matcher returns a permutation of its input, so
    that 16 distinct colors fill 16 distinct slots. *)
Theorem match_colors_permutation {dist : Type}
    (euclid : rgb → rgb → dist) (dist_lt : dist → dist → bool)
    (colors : list color) :
  length colors = 16%nat → Forall well_formed colors →
  ∃ out,
    match_colors euclid dist_lt colors = Ok (Some <$> out) ∧
    colors ≡ₚ out ∧
    (NoDup colors → NoDup out).
Proof.
  intros Hlen Hwf.
  destruct (match_loop_assignment euclid dist_lt (λ _ _ _ _, True)
              x_colors (serves_any euclid dist_lt) [] colors Hwf)
    as (out & rest & Hloop & Hassign); [by rewrite Hlen|].
  destruct (assignment_permutation _ _ _ _ _ Hassign) as [Hperm Hout].
  assert (rest = []) as ->.
  { apply Permutation_length in Hperm. rewrite length_app in Hperm.
    apply nil_length_inv. change (length x_colors) with 16%nat in Hout. lia. }
  rewrite app_nil_r in Hperm.
  exists out. split; [|split; [done|]].
  - unfold match_colors. simpl in Hloop. by rewrite app_nil_r in Hloop.
  - intros Hnodup. by rewrite <- Hperm.
Qed.

Lemma match_colors_permutation_witness :
  ∃ out,
    match_colors euclid_float PrimFloat.ltb sample16 = Ok (Some <$> out) ∧
    sample16 ≡ₚ out ∧
    (NoDup sample16 → NoDup out).
Proof.
  apply (match_colors_permutation euclid_float PrimFloat.ltb sample16).
  - reflexivity.
  - exact sample16_well_formed.
Defined.

(** C6: with fewer than 16 colors the matcher never returns a list, and it
    fails with the error of [min] on an empty pool, once every color it was
    given has been placed. *)
Theorem match_colors_underflow {dist : Type}
    (euclid : rgb → rgb → dist) (dist_lt : dist → dist → bool)
    (colors : list color) :
  (length colors < 16)%nat →
  (∀ out, match_colors euclid dist_lt colors ≠ Ok out) ∧
  (Forall well_formed colors →
   match_colors euclid dist_lt colors = Error EmptySequence).
Proof.
  intros Hlen. split.
  - intros out Hout. apply match_loop_ok_length in Hout.
    change (length x_colors) with 16%nat in Hout. lia.
  - intros Hwf. apply (match_loop_short euclid dist_lt x_colors [] colors Hwf).
    by change (length x_colors) with 16%nat.
Qed.

Lemma match_colors_underflow_witness :
  (∀ out, match_colors euclid_float PrimFloat.ltb (take 3 sample16) ≠ Ok out) ∧
  (Forall well_formed (take 3 sample16) →
   match_colors euclid_float PrimFloat.ltb (take 3 sample16)
   = Error EmptySequence).
Proof.
  apply (match_colors_underflow euclid_float PrimFloat.ltb (take 3 sample16)).
  simpl. lia.
Defined.

(** * Further properties *)

(** ** The slot matcher beyond 16 decodable colors *)

Section MatcherMore.

Context {dist : Type}.
Variable euclid : rgb → rgb → dist.
Variable dist_lt : dist → dist → bool.
Implicit Types (x : rgb) (c : color) (cs rest : list color).
Local Open Scope list_scope.

Lemma color_diff_error x c e :
  color_diff euclid x c = Error e → e = InvalidLiteral.
Proof.
  unfold color_diff. destruct (hex_to_rgb c) eqn:E; [done|].
  intros [= <-]. by eapply hex_to_rgb_error.
Qed.

Lemma min_scan_malformed x rest : ∀ c0 k0,
  Exists (λ c, ¬ well_formed c) rest →
  min_scan dist_lt (color_diff euclid x) c0 k0 rest = Error InvalidLiteral.
Proof.
  induction rest as [|c rest IH]; intros c0 k0 Hbad;
    [by apply Exists_nil in Hbad|].
  cbn [min_scan]. destruct (color_diff euclid x c) as [k|e] eqn:Hk.
  - apply Exists_cons in Hbad as [Hc|Hrest].
    + exfalso. apply Hc. unfold color_diff in Hk.
      destruct (hex_to_rgb c) eqn:E; [by eexists|done].
    + cbn [rbind]. destruct (dist_lt k k0); by apply IH.
  - cbn [rbind]. f_equal. by eapply color_diff_error.
Qed.

Lemma py_min_malformed x cs :
  Exists (λ c, ¬ well_formed c) cs →
  py_min dist_lt (color_diff euclid x) cs = Error InvalidLiteral.
Proof.
  destruct cs as [|c0 rest]; [by intros ?%Exists_nil|]. intros Hbad.
  cbn [py_min]. destruct (color_diff euclid x c0) as [k|e] eqn:Hk.
  - cbn [rbind]. apply min_scan_malformed.
    apply Exists_cons in Hbad as [Hc|Hrest]; [|done].
    exfalso. apply Hc. unfold color_diff in Hk.
    destruct (hex_to_rgb c0) eqn:E; [by eexists|done].
  - cbn [rbind]. f_equal. by eapply color_diff_error.
Qed.

Lemma match_loop_out_length xs : ∀ i out cs r,
  match_loop euclid dist_lt xs i out cs = Ok r → length r = length out.
Proof.
  induction xs as [|x xs IH]; intros i out cs r H; [by injection H as <-|].
  cbn [match_loop] in H.
  destruct (py_min _ _ cs) as [c|]; [|done]. cbn [rbind] in H.
  unfold list_assign in H. destruct (decide _); [|done]. cbn [rbind] in H.
  destruct (list_remove c cs) as [cs'|]; [|done]. cbn [rbind] in H.
  apply IH in H. by rewrite length_insert in H.
Qed.

End MatcherMore.

(** X1: with 16 or more decodable colors the matcher returns a list as long
    as its input: the 16 colors it picked, in slot order, and then [None]
    for every color that is left over. The picked and the left over colors
    together are a permutation of the input. *)
Theorem match_colors_overflow {dist : Type}
    (euclid : rgb → rgb → dist) (dist_lt : dist → dist → bool)
    (colors : list color) :
  (16 ≤ length colors)%nat → Forall well_formed colors →
  ∃ picked rest,
    match_colors euclid dist_lt colors
    = Ok ((Some <$> picked) ++ replicate (length colors - 16) None)%list ∧
    length picked = 16%nat ∧
    colors ≡ₚ (picked ++ rest)%list.
Proof.
  intros Hlen Hwf.
  destruct (match_loop_assignment euclid dist_lt (λ _ _ _ _, True)
              x_colors (serves_any euclid dist_lt) [] colors Hwf)
    as (picked & rest & Hloop & Hassign); [done|].
  destruct (assignment_permutation _ _ _ _ _ Hassign) as [Hperm Hpicked].
  change (length x_colors) with 16%nat in Hpicked.
  exists picked, rest. split; [|done].
  etrans; [exact Hloop|]. cbn [app]. do 3 f_equal.
  apply Permutation_length in Hperm. rewrite length_app in Hperm. lia.
Qed.

Lemma match_colors_overflow_witness :
  ∃ picked rest,
    match_colors euclid_float PrimFloat.ltb (sample16 ++ ["#123456"])%list
    = Ok ((Some <$> picked)
          ++ replicate (length (sample16 ++ ["#123456"])%list - 16) None)%list ∧
    length picked = 16%nat ∧
    (sample16 ++ ["#123456"])%list ≡ₚ (picked ++ rest)%list.
Proof.
  apply (match_colors_overflow euclid_float PrimFloat.ltb
           (sample16 ++ ["#123456"])%list).
  - simpl. lia.
  - repeat constructor; eexists; vm_compute; reflexivity.
Defined.

(** X2: a color that [hex_to_rgb] cannot decode makes the matcher raise the
    invalid literal error, at any length of the input and wherever the color
    stands in it. *)
Theorem match_colors_malformed {dist : Type}
    (euclid : rgb → rgb → dist) (dist_lt : dist → dist → bool)
    (colors : list color) :
  Exists (λ c, ¬ well_formed c) colors →
  match_colors euclid dist_lt colors = Error InvalidLiteral.
Proof.
  intros Hbad. unfold match_colors.
  destruct x_colors as [|x xs] eqn:Hx; [discriminate Hx|].
  cbn [match_loop]. by rewrite py_min_malformed.
Qed.

Lemma match_colors_malformed_witness :
  match_colors euclid_float PrimFloat.ltb ["#000000"; "#00gg00"; "#ffffff"]
  = Error InvalidLiteral.
Proof.
  apply (match_colors_malformed euclid_float PrimFloat.ltb).
  apply Exists_cons_tl, Exists_cons_hd. intros [v Hv].
  vm_compute in Hv. discriminate Hv.
Defined.

(** X3: whenever the matcher returns, what it returns has one entry for
    every color it was given, and it was given at least 16. *)
Theorem match_colors_length {dist : Type}
    (euclid : rgb → rgb → dist) (dist_lt : dist → dist → bool)
    (colors : list color) (out : list (option color)) :
  match_colors euclid dist_lt colors = Ok out →
  length out = length colors ∧ (16 ≤ length colors)%nat.
Proof.
  intros Hout. split.
  - apply match_loop_out_length in Hout. by rewrite length_replicate in Hout.
  - apply match_loop_ok_length in Hout.
    by change (length x_colors) with 16%nat in Hout.
Qed.

Lemma match_colors_length_witness :
  ∃ out,
    match_colors euclid_float PrimFloat.ltb sample16 = Ok out ∧
    length out = length sample16 ∧ (16 ≤ length sample16)%nat.
Proof.
  destruct (match_colors euclid_float PrimFloat.ltb sample16) as [out|e] eqn:H.
  - exists out. split; [reflexivity|].
    exact (match_colors_length euclid_float PrimFloat.ltb sample16 out H).
  - vm_compute in H. discriminate H.
Defined.

(** X4: slot 0 has the first pick: of all the colors given, it receives the
    one closest to black, the first one on a tie. The distance is the float
    of line 49, compared by the [<] of floats, and no distance to a
    reference color is NaN. *)
Theorem match_colors_first_pick (pow2 : float → float)
    (colors : list color) :
  (16 ≤ length colors)%nat → Forall well_formed colors →
  (∀ x c d, x ∈ x_colors → c ∈ colors →
     color_diff (euclid_pow pow2) x c = Ok d → PrimFloat.is_nan d = false) →
  ∃ out c j,
    match_colors (euclid_pow pow2) PrimFloat.ltb colors = Ok out ∧
    out !! 0%nat = Some (Some c) ∧
    is_pick (euclid_pow pow2) PrimFloat.ltb (0, 0, 0)%float colors j c.
Proof.
  intros Hlen Hwf Hnan.
  destruct (match_loop_greedy (euclid_pow pow2) PrimFloat.ltb not_nan
              float_ltb_order x_colors [] colors
              (keyed_floats pow2 colors Hwf Hnan))
    as (picked & rest & Hloop & Hassign); [done|].
  assert (Hx : ∃ xs, x_colors = (0, 0, 0)%float :: xs) by (by eexists).
  destruct Hx as [xs Hx]. unfold greedy in Hassign. rewrite Hx in Hassign.
  inversion Hassign as [|x xs' pool j c picked' rest' Hj Hpick Hrest];
    subst.
  eexists _, c, j. split; [exact Hloop|]. by split.
Qed.

Lemma match_colors_first_pick_witness :
  ∃ out c j,
    match_colors (euclid_pow (λ x, x * x)%float) PrimFloat.ltb sample16
    = Ok out ∧
    out !! 0%nat = Some (Some c) ∧
    is_pick (euclid_pow (λ x, x * x)%float) PrimFloat.ltb (0, 0, 0)%float
      sample16 j c.
Proof.
  apply (match_colors_first_pick (λ x, x * x)%float sample16).
  - simpl. lia.
  - exact sample16_well_formed.
  - apply no_nan_check_sound. vm_compute. reflexivity.
Defined.

(** ** Decoding, beyond six hex digits *)

Lemma int16_short_range (s : string) (z : Z) :
  (String.length s ≤ 2)%nat → Py.int16 s = Ok z → -15 ≤ z ≤ 255.
Proof.
  intros Hlen Hz.
  assert (H : holds_on_short int16_in_range = true)
    by (vm_compute; reflexivity).
  apply holds_on_short_sound with (s := s) in H; [|done].
  unfold int16_in_range in H. rewrite Hz in H. lia.
Qed.

Lemma over255_at_most_1 (z : Z) :
  -15 ≤ z ≤ 255 →
  (over255 z <=? 1)%float = true ∧ (over255 (-15) <=? over255 z)%float = true.
Proof.
  intros Hz.
  assert (H : forallb (λ n, let z := Z.of_nat n - 15 in
                        (over255 z <=? 1)%float
                        && (over255 (-15) <=? over255 z)%float)
                (seq 0 271) = true) by (vm_compute; reflexivity).
  rewrite forallb_forall in H.
  specialize (H (Z.to_nat (z + 15))). cbv zeta in H.
  replace (Z.of_nat (Z.to_nat (z + 15)) - 15) with z in H by lia.
  apply andb_true_iff, H, in_seq. lia.
Qed.

Lemma over255_unit (z : Z) :
  0 ≤ z ≤ 255 →
  (0 <=? over255 z)%float = true ∧ (over255 z <=? 1)%float = true.
Proof.
  intros Hz.
  assert (H : forallb (λ n, let z := Z.of_nat n in
                        (0 <=? over255 z)%float && (over255 z <=? 1)%float)
                (seq 0 256) = true) by (vm_compute; reflexivity).
  rewrite forallb_forall in H.
  specialize (H (Z.to_nat z)). cbv zeta in H.
  replace (Z.of_nat (Z.to_nat z)) with z in H by lia.
  apply andb_true_iff, H, in_seq. lia.
Qed.

Lemma hex_digit_range (a : ascii) (x : Z) :
  Py.hex_digit a = Some x → 0 ≤ x ≤ 15.
Proof.
  unfold Py.hex_digit. intros H.
  destruct (Py.digit_value a) as [d|] eqn:Hd; [|done].
  destruct (d <? 16) eqn:Hlt; [|done]. injection H as <-.
  apply Z.ltb_lt in Hlt. split; [|lia].
  unfold Py.digit_value in Hd.
  repeat case_match; try done; injection Hd as <-;
    repeat match goal with
      | H : _ && _ = true |- _ => apply andb_true_iff in H as [? ?]
      | H : (_ <=? _) = true |- _ => apply Z.leb_le in H
      end; lia.
Qed.

(** The channels of a decoded color, as the integers that [int] read. *)
Lemma hex_to_rgb_channels (s : string) (v : rgb) :
  hex_to_rgb s = Ok v →
  ∃ zr zg zb,
    v = (over255 zr, over255 zg, over255 zb) ∧
    -15 ≤ zr ≤ 255 ∧ -15 ≤ zg ≤ 255 ∧ -15 ≤ zb ≤ 255.
Proof.
  unfold hex_to_rgb. intros H.
  destruct (Py.int16 (Py.slice 0 2 _)) as [zr|] eqn:Er; [|done].
  destruct (Py.int16 (Py.slice 2 2 _)) as [zg|] eqn:Eg; [|done].
  destruct (Py.int16 (Py.slice 4 2 _)) as [zb|] eqn:Eb; [|done].
  simpl in H. injection H as <-. exists zr, zg, zb. split; [done|].
  repeat split; eapply int16_short_range; eauto using slice_length.
Qed.

(** X5: the channels of a color of six hex digits lie between 0.0 and
    1.0. *)
Theorem hex_to_rgb_unit_range (a b c d e f : ascii) (rest : string)
    (va vb vc vd ve vf : Z) :
  Py.hex_digit a = Some va → Py.hex_digit b = Some vb →
  Py.hex_digit c = Some vc → Py.hex_digit d = Some vd →
  Py.hex_digit e = Some ve → Py.hex_digit f = Some vf →
  ∃ r g bl,
    hex_to_rgb (hex6 a b c d e f rest) = Ok (r, g, bl) ∧
    Forall (λ x, (0 <=? x)%float = true ∧ (x <=? 1)%float = true) [r; g; bl].
Proof.
  intros Ha Hb Hc Hd He Hf.
  eexists _, _, _. split; [by apply hex_to_rgb_hex6|].
  apply hex_digit_range in Ha, Hb, Hc, Hd, He, Hf.
  repeat constructor; apply over255_unit; lia.
Qed.

Lemma hex_to_rgb_unit_range_witness :
  ∃ r g bl,
    hex_to_rgb "ff8000" = Ok (r, g, bl) ∧
    Forall (λ x, (0 <=? x)%float = true ∧ (x <=? 1)%float = true) [r; g; bl].
Proof.
  exact (hex_to_rgb_unit_range "f"%char "f"%char "8"%char "0"%char
           "0"%char "0"%char EmptyString 15 15 8 0 0 0
           eq_refl eq_refl eq_refl eq_refl eq_refl eq_refl).
Defined.

(** X6: whatever string is decoded, no channel exceeds 1.0, and none is
    below -15/255, the value of a slice that is a minus sign and the digit
    [f]. *)
Theorem hex_to_rgb_bounds (s : string) (r g b : float) :
  hex_to_rgb s = Ok (r, g, b) →
  Forall (λ x, (x <=? 1)%float = true ∧ (over255 (-15) <=? x)%float = true)
    [r; g; b].
Proof.
  intros H.
  destruct (hex_to_rgb_channels s _ H) as (zr & zg & zb & [= -> -> ->] & ?).
  repeat constructor; apply over255_at_most_1; lia.
Qed.

Lemma hex_to_rgb_bounds_witness :
  Forall (λ x, (x <=? 1)%float = true ∧ (over255 (-15) <=? x)%float = true)
    [over255 (-15); over255 15; over255 15].
Proof.
  apply (hex_to_rgb_bounds "#-f+f f"). vm_compute. reflexivity.
Defined.

Lemma result_Z_eq_sound (s t : string) :
  result_Z_eq (Py.int16 s) (Py.int16 t) = true → Py.int16 s = Py.int16 t.
Proof.
  destruct (Py.int16 s) as [a|e1] eqn:Es, (Py.int16 t) as [b|e2] eqn:Et;
    simpl; try done.
  - by intros ->%Z.eqb_eq.
  - intros _. apply int16_error in Es, Et. by subst.
Qed.

Lemma int16_upper (s : string) :
  (String.length s ≤ 2)%nat →
  Py.int16 (map_chars ascii_upper s) = Py.int16 s.
Proof.
  intros Hlen. apply result_Z_eq_sound.
  assert (H : holds_on_short same_in_upper = true)
    by (vm_compute; reflexivity).
  by apply holds_on_short_sound with (s := s) in H.
Qed.

Lemma slice_map_chars (f : ascii → ascii) (s : string) (i n : nat) :
  Py.slice i n (map_chars f s) = map_chars f (Py.slice i n s).
Proof.
  unfold Py.slice. revert i n.
  induction s as [|c s IH]; intros [|i] [|n]; simpl; try done.
  by rewrite IH.
Qed.

Lemma lstrip_upper (s : string) :
  Py.lstrip "#" (map_chars ascii_upper s)
  = map_chars ascii_upper (Py.lstrip "#" s).
Proof.
  induction s as [|c s IH]; [done|]. simpl.
  assert (H : forallb (λ a, Bool.eqb (Ascii.eqb (ascii_upper a) "#")
                              (Ascii.eqb a "#")) all_ascii = true)
    by (vm_compute; reflexivity).
  rewrite forallb_forall in H.
  specialize (H c (proj1 (list_elem_of_In _ _) (all_ascii_complete c))).
  apply Bool.eqb_prop in H. rewrite H.
  by destruct (Ascii.eqb c "#").
Qed.

(** X7: the case of the letters does not matter: a string and its upper
    case decode to the same channels, or both fail. *)
Theorem hex_to_rgb_upper (s : string) :
  hex_to_rgb (map_chars ascii_upper s) = hex_to_rgb s.
Proof.
  unfold hex_to_rgb. rewrite lstrip_upper, !slice_map_chars.
  by rewrite !int16_upper by apply slice_length.
Qed.

Lemma over255_sub_self (z : Z) :
  -15 ≤ z ≤ 255 → (over255 z - over255 z)%float = 0%float.
Proof.
  intros Hz.
  assert (H : ∀ n, (n < 271)%nat →
            (over255 (Z.of_nat n - 15) - over255 (Z.of_nat n - 15))%float
            = 0%float).
  { intros n Hn.
    do 271 (destruct n as [|n]; [vm_compute; reflexivity|]). lia. }
  specialize (H (Z.to_nat (z + 15))).
  replace (Z.of_nat (Z.to_nat (z + 15)) - 15) with z in H by lia.
  apply H. lia.
Qed.

(** X8: the distance of a decoded color to the string it was decoded from
    is 0.0, given that the power function of the C library maps zero to
    zero. *)
Theorem color_diff_self (pow2 : float → float) (c : color) (v : rgb) :
  pow2 0%float = 0%float →
  hex_to_rgb c = Ok v →
  color_diff (euclid_pow pow2) v c = Ok 0%float.
Proof.
  intros Hpow Hv. unfold color_diff. rewrite Hv. cbn [rbind].
  destruct (hex_to_rgb_channels c v Hv)
    as (zr & zg & zb & -> & Hr & Hg & Hb).
  unfold euclid_pow.
  rewrite !over255_sub_self, !Hpow by done. reflexivity.
Qed.

Lemma color_diff_self_witness :
  color_diff (euclid_pow (λ x, x * x)%float)
    (over255 255, over255 128, over255 0) "#ff8000"
  = Ok 0%float.
Proof.
  apply (color_diff_self (λ x, x * x)%float "#ff8000"); reflexivity.
Defined.

(** ** Cache names and cache files *)

Lemma append_inv_head (p a b : string) : p ++ a = p ++ b → a = b.
Proof. induction p as [|c p IH]; simpl; [done|]. intros [= H]. auto. Qed.

Lemma list_ascii_of_append (a b : string) :
  list_ascii_of_string (a ++ b)
  = (list_ascii_of_string a ++ list_ascii_of_string b)%list.
Proof. induction a as [|c a IH]; simpl; [done|]. by rewrite IH. Qed.

Lemma append_inv_tail (a b q : string) : a ++ q = b ++ q → a = b.
Proof.
  intros H. apply (f_equal list_ascii_of_string) in H.
  rewrite !list_ascii_of_append in H. apply app_inv_tail in H.
  apply (f_equal string_of_list_ascii) in H.
  by rewrite !string_of_list_ascii_of_string in H.
Qed.

Lemma str_of_int_inj (n n' : Z) :
  Py.str_of_int n = Py.str_of_int n' → n = n'.
Proof.
  unfold Py.str_of_int. intros H.
  assert (Hnil : ∀ z, Z.to_int z ≠ Decimal.Pos Decimal.Nil
                      ∧ Z.to_int z ≠ Decimal.Neg Decimal.Nil).
  { intros [|p|p]; simpl; split; try done;
      intros [= Hp]; by apply Unsigned.to_uint_nonnil in Hp. }
  apply (f_equal NilZero.int_of_string) in H.
  rewrite !NilZero.isi in H by apply Hnil.
  injection H as H. by apply DecimalZ.to_int_inj.
Qed.

Lemma ends_with_slash_append (s t : string) :
  t ≠ "" → Py.ends_with_slash (s ++ t) = Py.ends_with_slash t.
Proof.
  intros Ht. induction s as [|c s IH]; [done|].
  simpl. rewrite IH. destruct (s ++ t) eqn:E; [|done].
  by destruct s, t.
Qed.

Lemma sanitized_no_slash (img rest : string) :
  Py.starts_with_slash (re_sub_class in_class "_" img ++ "_" ++ rest) = false.
Proof.
  destruct img as [|c img]; [done|]. simpl.
  destruct (in_class c) eqn:Hc; [done|]. simpl.
  destruct (Ascii.eqb_spec c "/") as [->|Hne]; [done|].
  destruct c as [[] [] [] [] [] [] [] []]; try done.
Qed.

Lemma join_schemes (cache_dir : string) :
  Py.join1 cache_dir "schemes" ≠ "" ∧
  Py.ends_with_slash (Py.join1 cache_dir "schemes") = false.
Proof.
  unfold Py.join1. simpl.
  destruct (String.eqb cache_dir "" || Py.ends_with_slash cache_dir).
  - split; [by destruct cache_dir|]. by rewrite ends_with_slash_append.
  - split; [by destruct cache_dir|].
    by rewrite (ends_with_slash_append cache_dir ("/" ++ "schemes")).
Qed.

(** The cache file of an image whose size is known. *)
Lemma cache_file_eq getsize cache_version img backend light cache_dir sat n :
  getsize img = Ok n →
  cache_file getsize cache_version img backend light cache_dir sat
  = Ok (Py.join1 cache_dir "schemes" ++ "/"
        ++ entry_name img backend light sat n cache_version).
Proof.
  intros Hn. unfold cache_file, cache_fname. rewrite Hn. cbn [rbind hd tl].
  f_equal. unfold Py.path_join. cbn [foldl].
  destruct (join_schemes cache_dir) as [Hne Hslash].
  unfold Py.join1 at 1. fold (entry_name img backend light sat n cache_version).
  unfold entry_name at 1. rewrite sanitized_no_slash.
  fold (entry_name img backend light sat n cache_version).
  rewrite Hslash, orb_false_r.
  destruct (String.eqb_spec (Py.join1 cache_dir "schemes") ""); done.
Qed.

(** X9: in the file name of a cache entry the image path has the length it
    had, holds none of the characters [/], [|] and [.], and differs from the
    path only where one of these stood, which is where it has [_]. *)
Theorem sanitized_image_path (img : string) :
  let name := re_sub_class in_class "_" img in
  String.length name = String.length img ∧
  Forall (λ c, c ∉ ["/"; "|"; "."]%char) (list_ascii_of_string name) ∧
  ∀ i, String.get i name
       = (λ c, if in_class c then "_"%char else c) <$> String.get i img.
Proof.
  cbv zeta.
  induction img as [|c img (IHlen & IHall & IHget)]; [by repeat split|].
  assert (Hstep : re_sub_class in_class "_" (String c img)
                  = String (if in_class c then "_"%char else c)
                      (re_sub_class in_class "_" img))
    by (simpl; by destruct (in_class c)).
  rewrite Hstep. simpl. split; [by rewrite IHlen|]. split.
  - constructor; [|done]. destruct (in_class c) eqn:Hc.
    + rewrite !elem_of_cons, elem_of_nil.
      intros [?|[?|[?|[]]]]; discriminate.
    + unfold in_class in Hc. by apply bool_decide_eq_false in Hc.
  - intros [|i]; simpl; [done|apply IHget].
Qed.

(** X10: the cache file lies in the [schemes] directory of the cache
    directory, whatever the image path is: the name of the entry does not
    start with a slash, so that joining the path never drops the cache
    directory. *)
Theorem cache_file_in_schemes
    (getsize : string → result Z) (cache_version : string)
    (img backend : string) (light : bool) (cache_dir : string) (sat : pyval)
    (n : Z) :
  getsize img = Ok n →
  cache_file getsize cache_version img backend light cache_dir sat
  = Ok (Py.join1 cache_dir "schemes" ++ "/"
        ++ entry_name img backend light sat n cache_version) ∧
  (cache_dir ≠ "" → Py.ends_with_slash cache_dir = false →
   Py.join1 cache_dir "schemes" = cache_dir ++ "/schemes").
Proof.
  intros Hn. split; [by apply cache_file_eq|].
  intros Hne Hslash. unfold Py.join1. simpl. rewrite Hslash, orb_false_r.
  by destruct (String.eqb_spec cache_dir "").
Qed.

Lemma cache_file_in_schemes_witness :
  cache_file (λ _, Ok 10000) "1.1.0" "/home/user/wall.jpg" "wal" false
    "/home/user/.cache/wal" py_empty
  = Ok (Py.join1 "/home/user/.cache/wal" "schemes" ++ "/"
        ++ entry_name "/home/user/wall.jpg" "wal" false py_empty 10000
             "1.1.0") ∧
  ("/home/user/.cache/wal" ≠ "" →
   Py.ends_with_slash "/home/user/.cache/wal" = false →
   Py.join1 "/home/user/.cache/wal" "schemes"
   = "/home/user/.cache/wal" ++ "/schemes").
Proof.
  apply (cache_file_in_schemes (λ _, Ok 10000) "1.1.0" "/home/user/wall.jpg"
           "wal" false "/home/user/.cache/wal" py_empty 10000).
  reflexivity.
Defined.

(** X11: the light and the dark scheme of an image never share a cache
    file. *)
Theorem cache_file_light_dark
    (getsize : string → result Z) (cache_version : string)
    (img backend cache_dir : string) (sat : pyval) (n : Z) :
  getsize img = Ok n →
  cache_file getsize cache_version img backend true cache_dir sat
  ≠ cache_file getsize cache_version img backend false cache_dir sat.
Proof.
  intros Hn. rewrite !(cache_file_eq _ _ _ _ _ _ _ n Hn).
  intros [= H]. do 2 apply append_inv_head in H.
  unfold entry_name in H. do 2 apply append_inv_head in H.
  discriminate H.
Qed.

Lemma cache_file_light_dark_witness :
  cache_file (λ _, Ok 10000) "1.1.0" "/home/user/wall.jpg" "wal" true
    "/home/user/.cache/wal" py_empty
  ≠ cache_file (λ _, Ok 10000) "1.1.0" "/home/user/wall.jpg" "wal" false
      "/home/user/.cache/wal" py_empty.
Proof.
  apply (cache_file_light_dark (λ _, Ok 10000) "1.1.0" "/home/user/wall.jpg"
           "wal" "/home/user/.cache/wal" py_empty 10000).
  reflexivity.
Defined.

(** X12: an image whose size has changed has another cache file, all other
    arguments being the same. *)
Theorem cache_file_size
    (getsize getsize' : string → result Z) (cache_version : string)
    (img backend : string) (light : bool) (cache_dir : string) (sat : pyval)
    (n n' : Z) :
  getsize img = Ok n → getsize' img = Ok n' → n ≠ n' →
  cache_file getsize cache_version img backend light cache_dir sat
  ≠ cache_file getsize' cache_version img backend light cache_dir sat.
Proof.
  intros Hn Hn' Hne.
  rewrite (cache_file_eq _ _ _ _ _ _ _ n Hn),
    (cache_file_eq _ _ _ _ _ _ _ n' Hn').
  intros [= H]. do 2 apply append_inv_head in H.
  unfold entry_name in H. do 8 apply append_inv_head in H.
  apply append_inv_tail in H. by apply str_of_int_inj in H.
Qed.

Lemma cache_file_size_witness :
  cache_file (λ _, Ok 10000) "1.1.0" "/home/user/wall.jpg" "wal" false
    "/home/user/.cache/wal" py_empty
  ≠ cache_file (λ _, Ok 10001) "1.1.0" "/home/user/wall.jpg" "wal" false
      "/home/user/.cache/wal" py_empty.
Proof.
  apply (cache_file_size (λ _, Ok 10000) (λ _, Ok 10001) "1.1.0"
           "/home/user/wall.jpg" "wal" false "/home/user/.cache/wal"
           py_empty 10000 10001); [reflexivity|reflexivity|lia].
Defined.

(** ** Schemes and the cache *)

Section GetMore.

Context {dist : Type}.
Variable euclid : rgb → rgb → dist.
Variable dist_lt : dist → dist → bool.
Variable saturate_color : color → float → color.
Variable getsize : string → result Z.
Variable cache_version : string.
Variable backend_files : list string.
Variable shuffle : list string → list string.
Variable importable : string → bool.
Variable backend_get : string → string → bool → result (list color).

Lemma colors_to_dict_16 (cols : list color) (img : string) (w : world) :
  length cols = 16%nat → Forall well_formed cols →
  ∃ out,
    cols ≡ₚ out ∧
    colors_to_dict euclid dist_lt cols img w
    = Ok (scheme_of img (alpha_num w) out).
Proof.
  intros Hlen Hwf.
  destruct (match_loop_assignment euclid dist_lt (λ _ _ _ _, True)
              x_colors (serves_any euclid dist_lt) [] cols Hwf)
    as (out & rest & Hloop & Hassign); [by rewrite Hlen|].
  destruct (assignment_permutation _ _ _ _ _ Hassign) as [Hperm Hout].
  change (length x_colors) with 16%nat in Hout.
  assert (rest = []) as ->.
  { apply Permutation_length in Hperm. rewrite length_app in Hperm.
    apply nil_length_inv. lia. }
  rewrite app_nil_r in Hperm. exists out. split; [done|].
  unfold colors_to_dict.
  assert (Hmatch : match_colors euclid dist_lt cols = Ok (Some <$> out)).
  { etrans; [exact Hloop|]. cbn [app length replicate]. by rewrite app_nil_r. }
  rewrite Hmatch. cbn [rbind].
  do 16 (destruct out as [|? out]; [done|]).
  destruct out; [|done]. reflexivity.
Qed.

Lemma saturate_fresh_skip (cols : list color) (sat : pyval) :
  py_bool sat = false →
  on_fresh_list (λ l, saturate_colors saturate_color l sat) cols = Ok cols.
Proof.
  intros Hsat. unfold on_fresh_list.
  rewrite saturate_colors_skip; [done|].
  unfold saturation_requested. by rewrite Hsat.
Qed.

Lemma get_unfold img light backend cache_dir sat w :
  get euclid dist_lt saturate_color getsize cache_version backend_files
    shuffle importable backend_get img light backend cache_dir sat w
  = match cache_file getsize cache_version img backend light cache_dir sat
    with
    | Error e => (Error e, w)
    | Ok p =>
        match files w !! p with
        | Some d => (Ok (set_alpha (alpha_num w) d), w)
        | None =>
            match generate euclid dist_lt saturate_color backend_files
                    shuffle importable backend_get img light backend sat w
            with
            | Ok d => (Ok d, save_file_json d p w)
            | Error e => (Error e, w)
            end
        end
    end.
Proof.
  unfold get, cache_file.
  destruct (cache_fname _ _ _ _ _ _ _) as [name|e]; [|done]. cbn [rbind].
  unfold isfile, theme_file.
  destruct (files w !! _) as [d|] eqn:Hd.
  - by rewrite bool_decide_eq_true_2.
  - rewrite bool_decide_eq_false_2; [done|]. by intros [? ?].
Qed.

Lemma generate_alpha img light backend sat w w' :
  alpha_num w' = alpha_num w →
  generate euclid dist_lt saturate_color backend_files shuffle importable
    backend_get img light backend sat w'
  = generate euclid dist_lt saturate_color backend_files shuffle importable
      backend_get img light backend sat w.
Proof.
  intros Ha. unfold generate, colors_to_dict. by rewrite Ha.
Qed.

End GetMore.

Lemma cache_file_size_ne
    (getsize getsize' : string → result Z) (cache_version : string)
    (img backend : string) (light : bool) (cache_dir : string) (sat : pyval)
    (n n' : Z) (p p' : string) :
  getsize img = Ok n → getsize' img = Ok n' → n ≠ n' →
  cache_file getsize cache_version img backend light cache_dir sat = Ok p →
  cache_file getsize' cache_version img backend light cache_dir sat = Ok p' →
  p ≠ p'.
Proof.
  intros Hn Hn' Hne.
  rewrite (cache_file_eq _ _ _ _ _ _ _ n Hn),
    (cache_file_eq _ _ _ _ _ _ _ n' Hn').
  intros [= <-] [= <-] H. do 2 apply append_inv_head in H.
  unfold entry_name in H. do 8 apply append_inv_head in H.
  apply append_inv_tail in H. by apply str_of_int_inj in H.
Qed.

Section GetProperties.

Context {dist : Type}.
Variable euclid : rgb → rgb → dist.
Variable dist_lt : dist → dist → bool.
Variable saturate_color : color → float → color.
Variable getsize : string → result Z.
Variable cache_version : string.
Variable backend_files : list string.
Variable shuffle : list string → list string.
Variable importable : string → bool.
Variable backend_get : string → string → bool → result (list color).

(** X13: [colors_to_dict] on 16 decodable colors gives the scheme of a
    permutation of them: the image as wallpaper, the configured alpha, the
    keys [color0] to [color15] in this order, slot 0 as background and
    slot 15 as foreground and cursor. *)
Theorem colors_to_dict_scheme (cols : list color) (img : string) (w : world) :
  length cols = 16%nat → Forall well_formed cols →
  ∃ out,
    cols ≡ₚ out ∧
    colors_to_dict euclid dist_lt cols img w
    = Ok (scheme_of img (alpha_num w) out).
Proof. apply colors_to_dict_16. Qed.

(** X14: a call of [get] keeps every cache entry it finds, with its
    content, and does not touch the configured alpha; the one path at which
    it may store an entry is its own cache file, and it stores there only
    when no entry is there. *)
Theorem get_keeps_entries img light backend cache_dir sat w r w1 :
  get euclid dist_lt saturate_color getsize cache_version backend_files
    shuffle importable backend_get img light backend cache_dir sat w
  = (r, w1) →
  alpha_num w1 = alpha_num w ∧
  (∀ q d, files w !! q = Some d → files w1 !! q = Some d) ∧
  (∀ p q,
     cache_file getsize cache_version img backend light cache_dir sat = Ok p →
     q ≠ p → files w1 !! q = files w !! q).
Proof.
  rewrite get_unfold.
  destruct (cache_file _ _ _ _ _ _ _) as [p|e]; [|by intros [= <- <-]].
  destruct (files w !! p) as [d|] eqn:Hp; [by intros [= <- <-]|].
  destruct (generate _ _ _ _ _ _ _ _ _ _ _ _) as [d|e];
    [|by intros [= <- <-]].
  intros [= <- <-]. split; [done|]. split.
  - intros q d' Hq. simpl. rewrite lookup_insert_ne; [done|]. congruence.
  - intros p' q [= <-] Hne. simpl. by rewrite lookup_insert_ne.
Qed.


(** X16: a backend that cannot be imported is replaced by [wal]: the scheme
    generated is the one of [wal], and when [wal] cannot be imported either,
    the import error is raised. *)
Theorem generate_fallback img light backend sat w :
  backend ≠ "random" → importable backend = false →
  generate euclid dist_lt saturate_color backend_files shuffle importable
    backend_get img light backend sat w
  = if importable "wal" then
      generate euclid dist_lt saturate_color backend_files shuffle
        importable backend_get img light "wal" sat w
    else Error ImportError.
Proof.
  intros Hne Himp. unfold generate, get_backend.
  destruct (String.eqb_spec backend "random") as [->|_]; [done|].
  cbn [rbind String.eqb Ascii.eqb Bool.eqb]. rewrite Himp.
  by destruct (importable "wal").
Qed.

(** X17: the backend chosen for [random] is one of the listed backends, the
    name of a file of the backends directory that has no double underscore
    in it, with every [.py] removed; without such a file the choice raises
    an index error. Any other name is kept as it is. *)
Theorem get_backend_random :
  (∀ l, shuffle l ≡ₚ l) →
  match get_backend backend_files shuffle "random" with
  | Ok b => ∃ f, f ∈ backend_files ∧ has_dunder f = false
                 ∧ b = remove_dot_py f
  | Error e => e = IndexError ∧ ∀ f, f ∈ backend_files → has_dunder f = true
  end ∧
  ∀ b, b ≠ "random" → get_backend backend_files shuffle b = Ok b.
Proof.
  intros Hshuffle. split.
  - unfold get_backend. cbn [String.eqb Ascii.eqb Bool.eqb]. unfold list_item.
    destruct (shuffle _ !! 0%nat) as [b|] eqn:Hb.
    + apply list_elem_of_lookup_2 in Hb. rewrite Hshuffle in Hb.
      unfold list_backends in Hb.
      apply list_elem_of_fmap in Hb as (f & -> & Hf).
      apply list_elem_of_filter in Hf as [Hd Hf]. by exists f.
    + split; [done|]. intros f Hf.
      destruct (has_dunder f) eqn:Hd; [done|]. exfalso.
      assert (Hin : remove_dot_py f ∈ shuffle (list_backends backend_files)).
      { rewrite Hshuffle. unfold list_backends.
        apply list_elem_of_fmap. exists f. split; [done|].
        by apply list_elem_of_filter. }
      apply list_elem_of_lookup in Hin as [i Hi].
      destruct i; [congruence|].
      apply lookup_lt_Some in Hi. apply lookup_ge_None in Hb. lia.
  - intros b Hb. unfold get_backend.
    by destruct (String.eqb_spec b "random").
Qed.

(** X18: with no entry at the cache file, a falsy saturation and a backend
    that can be imported and extracts 16 decodable colors, [get] returns the
    scheme of a permutation of these colors and stores it at the cache file,
    next to the entries that were there. *)
Theorem get_fresh img light backend cache_dir sat w p cols :
  cache_file getsize cache_version img backend light cache_dir sat = Ok p →
  files w !! p = None →
  backend ≠ "random" → importable backend = true →
  backend_get backend img light = Ok cols →
  length cols = 16%nat → Forall well_formed cols →
  py_bool sat = false →
  ∃ out,
    cols ≡ₚ out ∧
    get euclid dist_lt saturate_color getsize cache_version backend_files
      shuffle importable backend_get img light backend cache_dir sat w
    = (Ok (scheme_of img (alpha_num w) out),
       {| alpha_num := alpha_num w;
          files := <[p:=scheme_of img (alpha_num w) out]> (files w) |}).
Proof.
  intros Hp Hfree Hne Himp Hcols Hlen Hwf Hsat.
  destruct (colors_to_dict_16 euclid dist_lt cols img w Hlen Hwf)
    as (out & Hperm & Hdict).
  exists out. split; [done|].
  rewrite get_unfold, Hp, Hfree. unfold generate, get_backend.
  destruct (String.eqb_spec backend "random"); [done|].
  cbn [rbind]. rewrite Himp. cbn [rbind]. rewrite Hcols. cbn [rbind].
  rewrite saturate_fresh_skip by done. cbn [rbind]. by rewrite Hdict.
Qed.

End GetProperties.

(** X19: once the size of the image has changed, [get] looks at another
    cache file: unless an entry is there, it does not return the scheme
    stored before the change but generates one and stores it at the new
    cache file. *)
Theorem get_after_resize {dist : Type}
    (euclid : rgb → rgb → dist) (dist_lt : dist → dist → bool)
    (saturate_color : color → float → color)
    (getsize getsize' : string → result Z) (cache_version : string)
    (backend_files : list string) (shuffle : list string → list string)
    (importable : string → bool)
    (backend_get : string → string → bool → result (list color))
    (img : string) (light : bool) (backend cache_dir : string) (sat : pyval)
    (w w1 : world) (r : result scheme) (n n' : Z) (p' : string) :
  get euclid dist_lt saturate_color getsize cache_version backend_files
    shuffle importable backend_get img light backend cache_dir sat w
  = (r, w1) →
  getsize img = Ok n → getsize' img = Ok n' → n ≠ n' →
  cache_file getsize' cache_version img backend light cache_dir sat = Ok p' →
  files w !! p' = None →
  get euclid dist_lt saturate_color getsize' cache_version backend_files
    shuffle importable backend_get img light backend cache_dir sat w1
  = match generate euclid dist_lt saturate_color backend_files shuffle
            importable backend_get img light backend sat w with
    | Ok d => (Ok d, save_file_json d p' w1)
    | Error e => (Error e, w1)
    end.
Proof.
  intros Hget Hn Hn' Hne Hp' Hfree.
  assert (Hw1 : alpha_num w1 = alpha_num w ∧ files w1 !! p' = None).
  { rewrite get_unfold in Hget.
    destruct (cache_file getsize _ _ _ _ _ _) as [p|e] eqn:Hp;
      [|by injection Hget as <- <-].
    destruct (files w !! p) as [d|]; [by injection Hget as <- <-|].
    destruct (generate _ _ _ _ _ _ _ _ _ _ _ _) as [d|e];
      [|by injection Hget as <- <-].
    injection Hget as <- <-. split; [done|]. simpl.
    rewrite lookup_insert_ne; [done|].
    exact (cache_file_size_ne getsize getsize' cache_version img backend
             light cache_dir sat n n' p p' Hn Hn' Hne Hp Hp'). }
  destruct Hw1 as [Ha Hfree1].
  rewrite get_unfold, Hp', Hfree1.
  by rewrite (generate_alpha _ _ _ _ _ _ _ _ _ _ _ w w1 Ha).
Qed.

Lemma colors_to_dict_scheme_witness :
  ∃ out,
    sample16 ≡ₚ out ∧
    colors_to_dict euclid_float PrimFloat.ltb sample16 "/home/user/wall.jpg"
      sample_world
    = Ok (scheme_of "/home/user/wall.jpg" (alpha_num sample_world) out).
Proof.
  apply (colors_to_dict_scheme euclid_float PrimFloat.ltb sample16
           "/home/user/wall.jpg" sample_world).
  - reflexivity.
  - exact sample16_well_formed.
Defined.

Lemma get_keeps_entries_witness :
  ∃ r w1,
    get euclid_float PrimFloat.ltb gray_out (λ _, Ok 10001) "1.1.0"
      sample_files id (λ _, true) sample_backend "/home/user/wall.jpg"
      false "wal" "/home/user/.cache/wal" py_empty sample_cached
    = (r, w1) ∧
    alpha_num w1 = alpha_num sample_cached ∧
    (∀ q d, files sample_cached !! q = Some d → files w1 !! q = Some d) ∧
    (∀ p q,
       cache_file (λ _, Ok 10001) "1.1.0" "/home/user/wall.jpg" "wal" false
         "/home/user/.cache/wal" py_empty = Ok p →
       q ≠ p → files w1 !! q = files sample_cached !! q).
Proof.
  destruct (get euclid_float PrimFloat.ltb gray_out (λ _, Ok 10001) "1.1.0"
              sample_files id (λ _, true) sample_backend
              "/home/user/wall.jpg" false "wal" "/home/user/.cache/wal"
              py_empty sample_cached) as [r w1] eqn:H.
  exists r, w1. split; [reflexivity|].
  exact (get_keeps_entries _ _ _ _ _ _ _ _ _ _ _ _ _ _ _ _ _ H).
Defined.


Lemma generate_fallback_witness :
  generate euclid_float PrimFloat.ltb gray_out sample_files id
    (λ b, String.eqb b "wal") sample_backend "/home/user/wall.jpg" false
    "colorz" py_empty sample_world
  = if String.eqb "wal" "wal" then
      generate euclid_float PrimFloat.ltb gray_out sample_files id
        (λ b, String.eqb b "wal") sample_backend "/home/user/wall.jpg" false
        "wal" py_empty sample_world
    else Error ImportError.
Proof.
  apply (generate_fallback euclid_float PrimFloat.ltb gray_out sample_files
           id (λ b, String.eqb b "wal") sample_backend "/home/user/wall.jpg"
           false "colorz" py_empty sample_world); [discriminate|reflexivity].
Defined.

Lemma get_backend_random_witness :
  match get_backend sample_files id "random" with
  | Ok b => ∃ f, f ∈ sample_files ∧ has_dunder f = false
                 ∧ b = remove_dot_py f
  | Error e => e = IndexError ∧ ∀ f, f ∈ sample_files → has_dunder f = true
  end ∧
  ∀ b, b ≠ "random" → get_backend sample_files id b = Ok b.
Proof.
  apply (get_backend_random sample_files id). intros l. reflexivity.
Defined.

Lemma get_fresh_witness :
  ∃ out,
    sample16 ≡ₚ out ∧
    get euclid_float PrimFloat.ltb gray_out (λ _, Ok 10000) "1.1.0"
      sample_files id (λ _, true) sample_backend "/home/user/wall.jpg"
      false "wal" "/home/user/.cache/wal" py_empty sample_world
    = (Ok (scheme_of "/home/user/wall.jpg" (alpha_num sample_world) out),
       {| alpha_num := alpha_num sample_world;
          files := <[sample_path:=scheme_of "/home/user/wall.jpg"
                                    (alpha_num sample_world) out]>
                     (files sample_world) |}).
Proof.
  apply (get_fresh euclid_float PrimFloat.ltb gray_out (λ _, Ok 10000)
           "1.1.0" sample_files id (λ _, true) sample_backend
           "/home/user/wall.jpg" false "wal" "/home/user/.cache/wal"
           py_empty sample_world sample_path sample16);
    try reflexivity; [discriminate|exact sample16_well_formed].
Defined.

Lemma get_after_resize_witness :
  ∃ r w1,
    get euclid_float PrimFloat.ltb gray_out (λ _, Ok 10000) "1.1.0"
      sample_files id (λ _, true) sample_backend "/home/user/wall.jpg"
      false "wal" "/home/user/.cache/wal" py_empty sample_world
    = (r, w1) ∧
    get euclid_float PrimFloat.ltb gray_out (λ _, Ok 10001) "1.1.0"
      sample_files id (λ _, true) sample_backend "/home/user/wall.jpg"
      false "wal" "/home/user/.cache/wal" py_empty w1
    = match generate euclid_float PrimFloat.ltb gray_out sample_files id
              (λ _, true) sample_backend "/home/user/wall.jpg" false "wal"
              py_empty sample_world with
      | Ok d => (Ok d, save_file_json d sample_path_resized w1)
      | Error e => (Error e, w1)
      end.
Proof.
  destruct (get euclid_float PrimFloat.ltb gray_out (λ _, Ok 10000) "1.1.0"
              sample_files id (λ _, true) sample_backend
              "/home/user/wall.jpg" false "wal" "/home/user/.cache/wal"
              py_empty sample_world) as [r w1] eqn:H.
  exists r, w1. split; [reflexivity|].
  apply (get_after_resize euclid_float PrimFloat.ltb gray_out
           (λ _, Ok 10000) (λ _, Ok 10001) "1.1.0" sample_files id
           (λ _, true) sample_backend "/home/user/wall.jpg" false "wal"
           "/home/user/.cache/wal" py_empty sample_world w1 r 10000 10001
           sample_path_resized H); try reflexivity. lia.
Defined.

(** ** The post-processor on other lists and amounts *)

Section HeapErrors.

Implicit Types (h : heap) (l : loc) (cs : list color).

Lemma st_bind_err {A B} (m : M A) (f : A → M B) h e h' :
  m h = (Error e, h') → st_bind m f h = (Error e, h').
Proof. intros Hm. unfold st_bind. by rewrite Hm. Qed.

Lemma get_item_insert_err h l cs i :
  cs !! i = None →
  get_item l i (<[l:=cs]> h) = (Error IndexError, <[l:=cs]> h).
Proof.
  intros Hi. unfold get_item, list_item. by rewrite lookup_insert_eq, Hi.
Qed.

Lemma set_item_insert_err h l cs i v :
  (length cs ≤ i)%nat →
  set_item l i v (<[l:=cs]> h) = (Error IndexError, <[l:=cs]> h).
Proof.
  intros Hi. unfold set_item, list_assign. rewrite lookup_insert_eq.
  by rewrite decide_False by lia.
Qed.

End HeapErrors.

Ltac run_heap_any :=
  cbn beta;
  lazymatch goal with
  | |- st_bind _ _ _ = _ =>
      first [ eapply st_bind_ok; [run_heap_any | run_heap_any]
            | eapply st_bind_err; run_heap_any ]
  | |- list_len _ _ = _ => apply list_len_insert
  | |- for_each _ _ _ = _ => apply for_each_read_only; simpl; lia
  | |- get_item _ _ _ = _ =>
      first [ apply get_item_insert; reflexivity
            | apply get_item_insert_err; reflexivity ]
  | |- set_item _ _ _ _ = _ =>
      first [ apply set_item_insert; simpl; lia
            | apply set_item_insert_err; simpl; lia ]
  | |- st_ret _ _ = _ => reflexivity
  end.

(** X20: in dark mode, on a list of at least 16 colors, slot 0 becomes the
    darkened slot 0, slots 7 and 8 are lightened from the new slot 0 by 0.75
    and 0.25, slot 15 is the new slot 7, and every other slot is left as it
    was. *)
Theorem generic_adjust_dark
    (saturate_color darken_color lighten_color : color → float → color)
    (h : heap) (l : loc) (cs : list color) (c0 : color) :
  h !! l = Some cs → (16 ≤ length cs)%nat → cs !! 0%nat = Some c0 →
  ∃ cs',
    generic_adjust saturate_color darken_color lighten_color l false h
    = (Ok l, <[l:=cs']> h) ∧
    cs' !! 0%nat = Some (darken_color c0 0.8%float) ∧
    cs' !! 7%nat
    = Some (lighten_color (darken_color c0 0.8%float) 0.75%float) ∧
    cs' !! 8%nat
    = Some (lighten_color (darken_color c0 0.8%float) 0.25%float) ∧
    cs' !! 15%nat = cs' !! 7%nat ∧
    ∀ i, i ∉ [0; 7; 8; 15]%nat → cs' !! i = cs !! i.
Proof.
  intros Hl Hlen Hc0.
  exists (adjusted darken_color lighten_color false cs).
  split; [by apply generic_adjust_run|].
  do 16 (destruct cs as [|? cs]; [simpl in Hlen; lia|]).
  injection Hc0 as ->. repeat split.
  intros i Hi. rewrite !elem_of_cons, elem_of_nil in Hi.
  do 16 (destruct i as [|i]; [by (reflexivity || (exfalso; tauto))|]).
  reflexivity.
Qed.

Lemma generic_adjust_dark_witness :
  ∃ cs',
    generic_adjust gray_out gray_out gray_out 1%positive false
      {[ 1%positive := sample16 ]}
    = (Ok 1%positive, <[1%positive:=cs']> {[ 1%positive := sample16 ]}) ∧
    cs' !! 0%nat = Some (gray_out "#ffffff" 0.8%float) ∧
    cs' !! 7%nat
    = Some (gray_out (gray_out "#ffffff" 0.8%float) 0.75%float) ∧
    cs' !! 8%nat
    = Some (gray_out (gray_out "#ffffff" 0.8%float) 0.25%float) ∧
    cs' !! 15%nat = cs' !! 7%nat ∧
    ∀ i, i ∉ [0; 7; 8; 15]%nat → cs' !! i = sample16 !! i.
Proof.
  apply (generic_adjust_dark gray_out gray_out gray_out
           {[ 1%positive := sample16 ]} 1%positive sample16 "#ffffff").
  - reflexivity.
  - simpl. lia.
  - reflexivity.
Defined.

Lemma generic_adjust_short_insert
    (saturate_color darken_color lighten_color : color → float → color)
    (h : heap) (l : loc) (cs : list color) (light : bool) :
  (length cs < 16)%nat →
  ∃ cs',
    generic_adjust saturate_color darken_color lighten_color l light
      (<[l:=cs]> h)
    = (Error IndexError, <[l:=cs']> h) ∧
    length cs' = length cs ∧
    (∀ c0, cs !! 0%nat = Some c0 →
       cs' !! 0%nat = Some (if light then lighten_color c0 0.95%float
                            else darken_color c0 0.8%float)) ∧
    ∀ i, i ∉ [0; 7; 8]%nat → cs' !! i = cs !! i.
Proof.
  intros Hlen. unfold generic_adjust.
  do 16 (destruct cs as [|? cs];
    [destruct light; unfold adjust_light, adjust_dark;
     (eexists; split; [run_heap_any|]);
     (split; [reflexivity|]);
     (split; [by intros ? [= ->]|]);
     intros i Hi; rewrite !elem_of_cons, elem_of_nil in Hi;
     do 16 (try (destruct i as [|i]; [by (reflexivity || (exfalso; tauto))|]));
     reflexivity
    |]).
  simpl in Hlen. lia.
Qed.

(** X21: on a list of fewer than 16 colors [generic_adjust] raises an index
    error, in both modes, and the list of the caller keeps what was written
    before: a list that is not empty has its slot 0 adjusted already, while
    its length and its slots other than 0, 7 and 8 are as before. *)
Theorem generic_adjust_short
    (saturate_color darken_color lighten_color : color → float → color)
    (h : heap) (l : loc) (cs : list color) (light : bool) :
  h !! l = Some cs → (length cs < 16)%nat →
  ∃ cs',
    generic_adjust saturate_color darken_color lighten_color l light h
    = (Error IndexError, <[l:=cs']> h) ∧
    length cs' = length cs ∧
    (∀ c0, cs !! 0%nat = Some c0 →
       cs' !! 0%nat = Some (if light then lighten_color c0 0.95%float
                            else darken_color c0 0.8%float)) ∧
    ∀ i, i ∉ [0; 7; 8]%nat → cs' !! i = cs !! i.
Proof.
  intros Hl Hlen.
  destruct (generic_adjust_short_insert saturate_color darken_color
              lighten_color h l cs light Hlen) as (cs' & Hrun & Hrest).
  exists cs'. by rewrite insert_id in Hrun.
Qed.

Lemma generic_adjust_short_witness :
  ∃ cs',
    generic_adjust gray_out gray_out gray_out 1%positive true
      {[ 1%positive := take 8 sample16 ]}
    = (Error IndexError, <[1%positive:=cs']> {[ 1%positive := take 8 sample16 ]}) ∧
    length cs' = length (take 8 sample16) ∧
    (∀ c0, take 8 sample16 !! 0%nat = Some c0 →
       cs' !! 0%nat = Some (if true then gray_out c0 0.95%float
                            else gray_out c0 0.8%float)) ∧
    ∀ i, i ∉ [0; 7; 8]%nat → cs' !! i = take 8 sample16 !! i.
Proof.
  apply (generic_adjust_short gray_out gray_out gray_out
           {[ 1%positive := take 8 sample16 ]} 1%positive (take 8 sample16)
           true).
  - reflexivity.
  - simpl. lia.
Defined.

(** X22: an amount that is truthy and that [float] rejects makes
    [saturate_colors] raise the error of [float] before any slot is
    touched. *)
Theorem saturate_colors_bad_amount
    (saturate_color : color → float → color)
    (h : heap) (l : loc) (amount : pyval) (e : exn) :
  py_bool amount = true → py_float amount = Error e →
  saturate_colors saturate_color l amount h = (Error e, h).
Proof.
  intros Hb Hf. apply saturate_colors_raise.
  unfold saturation_requested. by rewrite Hb, Hf.
Qed.

Lemma saturate_colors_bad_amount_witness :
  saturate_colors gray_out 1%positive
    {| py_bool := true; py_float := Error BadFloat; py_str := "much" |}
    {[ 1%positive := sample16 ]}
  = (Error BadFloat, {[ 1%positive := sample16 ]}).
Proof.
  apply (saturate_colors_bad_amount gray_out {[ 1%positive := sample16 ]}
           1%positive
           {| py_bool := true; py_float := Error BadFloat;
              py_str := "much" |} BadFloat); reflexivity.
Defined.

(** X23: a list of any length is saturated without an error, a short or an
    empty one as well: the list keeps its length, slots 0, 7, 8 and 15 are
    kept as far as they exist, and every other slot is saturated. *)
Theorem saturate_colors_any_length
    (saturate_color : color → float → color)
    (h : heap) (l : loc) (cs : list color) (amount : pyval) (x : float) :
  h !! l = Some cs →
  py_bool amount = true → py_float amount = Ok x → (x <=? 1)%float = true →
  ∃ cs',
    saturate_colors saturate_color l amount h = (Ok l, <[l:=cs']> h) ∧
    length cs' = length cs ∧
    ∀ i, cs' !! i
         = (λ c, if bool_decide (i ∈ [0; 7; 8; 15]%nat) then c
                 else saturate_color c x) <$> cs !! i.
Proof.
  intros Hl Hb Hx Hle. exists (saturated saturate_color x cs).
  split; [by apply saturate_colors_run|].
  split; [by rewrite saturated_length|].
  intros i. rewrite saturated_lookup. unfold not_anchor.
  by destruct (bool_decide _), (cs !! i).
Qed.

Lemma saturate_colors_any_length_witness :
  ∃ cs',
    saturate_colors gray_out 1%positive (py_of_float 0.5 "0.5")
      {[ 1%positive := take 3 sample16 ]}
    = (Ok 1%positive, <[1%positive:=cs']> {[ 1%positive := take 3 sample16 ]}) ∧
    length cs' = length (take 3 sample16) ∧
    ∀ i, cs' !! i
         = (λ c, if bool_decide (i ∈ [0; 7; 8; 15]%nat) then c
                 else gray_out c 0.5%float) <$> take 3 sample16 !! i.
Proof.
  apply (saturate_colors_any_length gray_out
           {[ 1%positive := take 3 sample16 ]} 1%positive (take 3 sample16)
           (py_of_float 0.5 "0.5") 0.5%float); reflexivity.
Defined.

(** ** The listed backends *)

Lemma remove_dot_py_other (c : ascii) (r : string) :
  c ≠ "."%char → remove_dot_py (String c r) = String c (remove_dot_py r).
Proof. intros Hc. destruct c as [[] [] [] [] [] [] [] []]; done. Qed.

Lemma remove_dot_py_dot_other (c : ascii) (r : string) :
  c ≠ "p"%char →
  remove_dot_py (String "." (String c r))
  = String "." (remove_dot_py (String c r)).
Proof. intros Hc. destruct c as [[] [] [] [] [] [] [] []]; done. Qed.

Lemma remove_dot_py_dot_p_other (c : ascii) (r : string) :
  c ≠ "y"%char →
  remove_dot_py (String "." (String "p" (String c r)))
  = String "." (remove_dot_py (String "p" (String c r))).
Proof. intros Hc. destruct c as [[] [] [] [] [] [] [] []]; done. Qed.

Lemma remove_dot_py_suffix (s : string) :
  remove_dot_py (s ++ ".py") = remove_dot_py s.
Proof.
  remember (String.length s) as n eqn:Hn.
  revert s Hn. induction (lt_wf n) as [n _ IH]. intros s ->.
  assert (IHs : ∀ t, (String.length t < String.length s)%nat →
            remove_dot_py (t ++ ".py") = remove_dot_py t)
    by (intros t Ht; by eapply IH).
  clear IH. destruct s as [|c1 r1]; [done|].
  change (String c1 r1 ++ ".py") with (String c1 (r1 ++ ".py")).
  destruct (decide (c1 = "."%char)) as [->|H1].
  2:{ rewrite !remove_dot_py_other by done. f_equal. apply IHs. simpl. lia. }
  destruct r1 as [|c2 r2]; [done|].
  change (String c2 r2 ++ ".py") with (String c2 (r2 ++ ".py")).
  destruct (decide (c2 = "p"%char)) as [->|H2].
  2:{ rewrite !remove_dot_py_dot_other by done. f_equal.
      apply (IHs (String c2 r2)). simpl. lia. }
  destruct r2 as [|c3 r3]; [done|].
  change (String c3 r3 ++ ".py") with (String c3 (r3 ++ ".py")).
  destruct (decide (c3 = "y"%char)) as [->|H3].
  - cbn [remove_dot_py]. apply IHs. simpl. lia.
  - rewrite !remove_dot_py_dot_p_other by done. f_equal.
    apply (IHs (String "p" (String c3 r3))). simpl. lia.
Qed.

Lemma has_dunder_other (c : ascii) (r : string) :
  c ≠ "_"%char → has_dunder (String c r) = has_dunder r.
Proof. intros Hc. destruct c as [[] [] [] [] [] [] [] []]; done. Qed.

Lemma has_dunder_under_other (c : ascii) (r : string) :
  c ≠ "_"%char → has_dunder (String "_" (String c r)) = has_dunder (String c r).
Proof. intros Hc. destruct c as [[] [] [] [] [] [] [] []]; done. Qed.

Lemma has_dunder_suffix (s : string) :
  has_dunder (s ++ ".py") = has_dunder s.
Proof.
  induction s as [|c r IH]; [done|].
  change (String c r ++ ".py") with (String c (r ++ ".py")).
  destruct (decide (c = "_"%char)) as [->|Hc].
  2:{ by rewrite !has_dunder_other. }
  destruct r as [|c2 r2]; [done|].
  change (String c2 r2 ++ ".py") with (String c2 (r2 ++ ".py")).
  destruct (decide (c2 = "_"%char)) as [->|Hc2]; [done|].
  rewrite !has_dunder_under_other by done. exact IH.
Qed.

(** X24: a file [b.py] of the backends directory is listed as the backend
    [b], when [b] has no double underscore and no [.py] in it; a file whose
    name has a double underscore contributes no backend. *)
Theorem list_backends_module (backend_files : list string) (b : string) :
  (b ++ ".py") ∈ backend_files →
  has_dunder b = false → remove_dot_py b = b →
  b ∈ list_backends backend_files ∧
  list_backends backend_files
  = list_backends (filter (λ f, has_dunder f = false) backend_files).
Proof.
  intros Hin Hd Hb. split.
  - unfold list_backends. apply list_elem_of_fmap. exists (b ++ ".py").
    split; [by rewrite remove_dot_py_suffix|].
    apply list_elem_of_filter. split; [|done]. by rewrite has_dunder_suffix.
  - unfold list_backends. f_equal. symmetry. apply list_filter_filter_l.
    by intros f Hf.
Qed.

Lemma list_backends_module_witness :
  "wal" ∈ list_backends sample_files ∧
  list_backends sample_files
  = list_backends (filter (λ f, has_dunder f = false) sample_files).
Proof.
  apply (list_backends_module sample_files "wal"); [|reflexivity|reflexivity].
  apply list_elem_of_here.
Defined.

(** ** Matching what was matched *)

Section MatcherStable.

Context {dist : Type}.
Variable euclid : rgb → rgb → dist.
Variable dist_lt : dist → dist → bool.
Implicit Types (x : rgb) (c : color) (cs pool picked rest : list color).
Local Open Scope list_scope.

(** The pick of a slot is determined by the pool. *)
Lemma is_pick_unique x pool j j' c c' :
  is_pick euclid dist_lt x pool j c → is_pick euclid dist_lt x pool j' c' →
  j = j' ∧ c = c'.
Proof.
  intros (Hj & Hmin & Hfirst) (Hj' & Hmin' & Hfirst').
  assert (Hlt : ∀ i i' a a', (i < i')%nat → pool !! i = Some a →
            (∀ b, b ∈ pool → closer euclid dist_lt x b a = false) →
            (∀ b, b ∈ take i' pool → closer euclid dist_lt x a' b = true) →
            pool !! i' = Some a' → False).
  { intros i i' a a' Hii Ha Hmina Hfirsta' Ha'.
    assert (Hin : a ∈ take i' pool).
    { apply list_elem_of_lookup. exists i. by rewrite lookup_take_lt. }
    apply Hfirsta' in Hin. rewrite Hmina in Hin; [done|].
    apply list_elem_of_lookup. by exists i'. }
  destruct (Nat.lt_trichotomy j j') as [H|[->|H]].
  - exfalso. by eapply (Hlt j j' c c').
  - split; [done|]. congruence.
  - exfalso. by eapply (Hlt j' j c' c).
Qed.

Lemma greedy_unique xs : ∀ pool picked rest picked' rest',
  greedy euclid dist_lt xs pool picked rest →
  greedy euclid dist_lt xs pool picked' rest' →
  picked = picked' ∧ rest = rest'.
Proof.
  induction xs as [|x xs IH]; intros pool picked rest picked' rest' H H'.
  - by inversion H; inversion H'; subst.
  - inversion H as [|? ? ? j c p r Hj Hp Hr]; subst.
    inversion H' as [|? ? ? j' c' p' r' Hj' Hp' Hr']; subst.
    destruct (is_pick_unique _ _ _ _ _ _ Hp Hp') as [-> ->].
    destruct (IH _ _ _ _ _ Hr Hr') as [-> ->]. done.
Qed.

(** Colors that were assigned to the slots in order are assigned alike when
    they come in this order. *)
Lemma greedy_again xs : ∀ pool picked,
  greedy euclid dist_lt xs pool picked [] →
  greedy euclid dist_lt xs picked picked [].
Proof.
  induction xs as [|x xs IH]; intros pool picked H.
  - inversion H; subst. constructor.
  - inversion H as [|? ? ? j c p r Hj (_ & Hmin & _) Hr]; subst.
    apply (assign_step _ x xs (c :: p) 0 c p []); [done| |by eapply IH].
    split; [done|]. split; [|by intros ? ?%elem_of_nil].
    intros c' Hc'. apply Hmin.
    destruct (assignment_permutation _ _ _ _ _ Hr) as [Hperm _].
    rewrite app_nil_r in Hperm.
    rewrite (delete_Permutation pool j c Hj), Hperm. done.
Qed.

End MatcherStable.

(** X25: a matched palette is stable: when the 16 colors that the matcher
    returned are matched again, in the order of their slots, every color
    keeps its slot. The distance is the float of line 49, compared by the
    [<] of floats, and no distance to a reference color is NaN. *)
Theorem match_colors_stable (pow2 : float → float)
    (colors out : list color) :
  length colors = 16%nat → Forall well_formed colors →
  (∀ x c d, x ∈ x_colors → c ∈ colors →
     color_diff (euclid_pow pow2) x c = Ok d → PrimFloat.is_nan d = false) →
  match_colors (euclid_pow pow2) PrimFloat.ltb colors = Ok (Some <$> out) →
  match_colors (euclid_pow pow2) PrimFloat.ltb out = Ok (Some <$> out).
Proof.
  intros Hlen Hwf Hnan Hout.
  destruct (match_colors_floats pow2 colors Hlen Hwf Hnan)
    as (picked & Hpicked & Hgreedy & Hperm).
  rewrite Hpicked in Hout. injection Hout as Hout.
  apply (inj (fmap Some)) in Hout as ->.
  destruct (match_colors_floats pow2 out)
    as (picked' & Hpicked' & Hgreedy' & _).
  { by rewrite <- Hperm. }
  { by rewrite <- Hperm. }
  { intros x c d Hx Hc. apply Hnan; [done|]. by rewrite Hperm. }
  apply greedy_again in Hgreedy.
  destruct (greedy_unique _ _ _ _ _ _ _ _ Hgreedy Hgreedy') as [<- _].
  exact Hpicked'.
Qed.

Lemma match_colors_stable_witness :
  match_colors (euclid_pow (λ x, x * x)%float) PrimFloat.ltb
    (reverse sample16)
  = Ok (Some <$> reverse sample16).
Proof.
  apply (match_colors_stable (λ x, x * x)%float sample16 (reverse sample16)).
  - reflexivity.
  - exact sample16_well_formed.
  - apply no_nan_check_sound. vm_compute. reflexivity.
  - vm_compute. reflexivity.
Defined.
